(** * Remote-command dispatcher: resolver, PowerShell client, handler and
      RabbitMQ broker, embedded from the Python sources.

    - [Py]       : exceptions, outcomes and the few [str] methods the code uses
    - [Re]       : the regular expressions of the two modules below
    - [Resolver] : resolver.py (and the field names of preferences_model.py)
    - [Dispatcher] : config_handler.py, pwsh_client.py, pwsh_handler.py
    - [Broker]   : service_framework/broker/rabbit_broker_async.py

    The properties follow the definitions, one module of facts per module
    of definitions. *)

From Stdlib Require Import List String Ascii Bool NArith ZArith Arith Lia HexString.
Import ListNotations.
Open Scope string_scope.


(* ================================================================== *)
(** * Python values shared by all modules *)
(* ================================================================== *)

Module Py.

(** Exception classes that the sources name or that the interpreter raises
    on their paths.  The aio_pika classes are re-exports of aiormq's. *)
Inductive exc_class : Type :=
  | Exception
  | TypeError | ValueError | AttributeError | IndexError
  | NotImplementedError | RuntimeError | OSError | ConnectionError
  | ValidationError | JSONDecodeError
  | AMQPError | AMQPConnectionError | AuthenticationError | ConnectionClosed
  | AMQPChannelError | ChannelClosed | ChannelNotFoundEntity
  | ChannelPreconditionFailed | ChannelInvalidStateError.

Definition exc_class_eqb (a b : exc_class) : bool :=
  match a, b with
  | Exception, Exception | TypeError, TypeError | ValueError, ValueError
  | AttributeError, AttributeError | IndexError, IndexError
  | NotImplementedError, NotImplementedError | RuntimeError, RuntimeError
  | OSError, OSError | ConnectionError, ConnectionError
  | ValidationError, ValidationError | JSONDecodeError, JSONDecodeError
  | AMQPError, AMQPError | AMQPConnectionError, AMQPConnectionError
  | AuthenticationError, AuthenticationError
  | ConnectionClosed, ConnectionClosed
  | AMQPChannelError, AMQPChannelError | ChannelClosed, ChannelClosed
  | ChannelNotFoundEntity, ChannelNotFoundEntity
  | ChannelPreconditionFailed, ChannelPreconditionFailed
  | ChannelInvalidStateError, ChannelInvalidStateError => true
  | _, _ => false
  end.

(** An exception instance: its class and [str(exception)].  Every instance
    is an [Exception]; cancellation, a [BaseException], is not modelled. *)
Record exn : Type := mkExn { exn_class : exc_class; exn_str : string }.

Inductive outcome (A : Type) : Type :=
  | Ret (a : A)
  | Raise (e : exn).
Arguments Ret {A} a.
Arguments Raise {A} e.

Definition obind {A B} (o : outcome A) (f : A -> outcome B) : outcome B :=
  match o with
  | Ret a => f a
  | Raise e => Raise e
  end.

(** A [str] is a sequence of code points; the model keeps the code points
    below 256, one per [ascii]. *)
Definition code (c : ascii) : N := N_of_ascii c.

Definition in_range (lo hi : N) (c : ascii) : bool :=
  ((lo <=? code c) && (code c <=? hi))%N.

(** [c.isspace()], which is also what [\s] matches in a [str] pattern:
    U+0009..U+000D, U+001C..U+0020, U+0085, U+00A0. *)
Definition isspace (c : ascii) : bool :=
  in_range 9 13 c || in_range 28 32 c || (code c =? 133)%N || (code c =? 160)%N.

(** The decimal digits [0]..[9], the only digits [int] reads below 256. *)
Definition isdecimal (c : ascii) : bool := in_range 48 57 c.

(** [c.isdigit()]: the decimal digits and the superscripts U+00B2, U+00B3
    and U+00B9. *)
Definition isdigit_char (c : ascii) : bool :=
  isdecimal c || (code c =? 178)%N || (code c =? 179)%N || (code c =? 185)%N.

Fixpoint all_chars (p : ascii -> bool) (s : string) : bool :=
  match s with
  | EmptyString => true
  | String c s' => p c && all_chars p s'
  end.

(** [s.isdigit()]: at least one character, and all of them digits. *)
Definition isdigit (s : string) : bool :=
  match s with
  | EmptyString => false
  | _ => all_chars isdigit_char s
  end.

(** [s.replace(c, '')] for a one-character [c]. *)
Fixpoint remove_char (c : ascii) (s : string) : string :=
  match s with
  | EmptyString => EmptyString
  | String a s' =>
      if Ascii.eqb a c then remove_char c s' else String a (remove_char c s')
  end.

Fixpoint lstrip (s : string) : string :=
  match s with
  | String c s' => if isspace c then lstrip s' else s
  | EmptyString => EmptyString
  end.

Fixpoint rstrip (s : string) : string :=
  match s with
  | EmptyString => EmptyString
  | String c s' =>
      match rstrip s' with
      | EmptyString => if isspace c then EmptyString else String c EmptyString
      | r => String c r
      end
  end.

Definition strip (s : string) : string := rstrip (lstrip s).

Definition digit_value (c : ascii) : N := (code c - 48)%N.

Fixpoint int_digits (acc : N) (s : string) : outcome N :=
  match s with
  | EmptyString => Ret acc
  | String c s' =>
      if isdecimal c then int_digits (10 * acc + digit_value c)%N s'
      else Raise (mkExn ValueError "invalid literal for int() with base 10")
  end.

(** [int(s)] on the strings the source passes to it, those with
    [s.isdigit()]: the value of a run of decimal digits, [ValueError] as soon
    as another digit occurs.  (Signs, blanks and underscores, which [int]
    also reads, never pass [isdigit].) *)
Definition int (s : string) : outcome N :=
  match s with
  | EmptyString => Raise (mkExn ValueError "invalid literal for int() with base 10")
  | _ => int_digits 0 s
  end.

(** [hex(n)] for [n >= 0]: ["0x"] and the lower-case digits. *)
Definition hex (n : N) : string := HexString.of_N n.

Definition upper (c : ascii) : ascii :=
  if in_range 97 122 c then ascii_of_N (code c - 32) else c.

Definition lower (c : ascii) : ascii :=
  if in_range 65 90 c then ascii_of_N (code c + 32) else c.

Fixpoint map_chars (f : ascii -> ascii) (s : string) : string :=
  match s with
  | EmptyString => EmptyString
  | String c s' => String (f c) (map_chars f s')
  end.

(** [s.capitalize()] on ASCII text. *)
Definition capitalize (s : string) : string :=
  match s with
  | EmptyString => EmptyString
  | String c s' => String (upper c) (map_chars lower s')
  end.

(** [s.split(sep)] for a one-character separator. *)
Fixpoint split (sep : ascii) (s : string) : list string :=
  match s with
  | EmptyString => [EmptyString]
  | String c s' =>
      if Ascii.eqb c sep then EmptyString :: split sep s'
      else match split sep s' with
           | w :: ws => String c w :: ws
           | [] => [String c EmptyString]
           end
  end.

(** [''.join(l)] *)
Definition join (l : list string) : string := String.concat "" l.

End Py.

Import Py.

(* ================================================================== *)
(** * The fragment of [re] that the patterns use *)
(* ================================================================== *)

Module Re.

(** A pattern is a sequence of atoms, matched left to right with
    backtracking; repetitions are greedy. *)
Inductive atom : Type :=
  | Lit (s : string)                (* literal text *)
  | Star (cls : ascii -> bool)      (* [cls*] *)
  | Plus (cls : ascii -> bool)      (* [cls+] *)
  | One (cls : ascii -> bool)       (* one character of the class *)
  | GroupPlus (cls : ascii -> bool) (* [(cls+)], the capturing group *).

Fixpoint strip_prefix (l s : string) : option string :=
  match l, s with
  | EmptyString, _ => Some s
  | String a l', String b s' => if Ascii.eqb a b then strip_prefix l' s' else None
  | String _ _, EmptyString => None
  end.

(** [rmatch p s grp]: match [p] at the start of [s]; the result is the text
    captured by the group ([grp] when the group is not in [p]) and what
    follows the match. *)
Fixpoint rmatch (p : list atom) (s : string) (grp : string)
    : option (string * string) :=
  match p with
  | [] => Some (grp, s)
  | Lit l :: p' =>
      match strip_prefix l s with
      | Some s' => rmatch p' s' grp
      | None => None
      end
  | One cls :: p' =>
      match s with
      | String a s' => if cls a then rmatch p' s' grp else None
      | EmptyString => None
      end
  | Star cls :: p' =>
      (fix star (s : string) : option (string * string) :=
         match s with
         | String a s' =>
             if cls a then
               match star s' with
               | Some r => Some r
               | None => rmatch p' s grp
               end
             else rmatch p' s grp
         | EmptyString => rmatch p' s grp
         end) s
  | Plus cls :: p' =>
      match s with
      | String a s' =>
          if cls a then
            (fix star (s : string) : option (string * string) :=
               match s with
               | String a s' =>
                   if cls a then
                     match star s' with
                     | Some r => Some r
                     | None => rmatch p' s grp
                     end
                   else rmatch p' s grp
               | EmptyString => rmatch p' s grp
               end) s'
          else None
      | EmptyString => None
      end
  | GroupPlus cls :: p' =>
      (fix plus (acc s : string) : option (string * string) :=
         match s with
         | String a s' =>
             if cls a then
               match plus (acc ++ String a EmptyString) s' with
               | Some r => Some r
               | None =>
                   match acc with
                   | EmptyString => None
                   | _ => rmatch p' s acc
                   end
               end
             else match acc with
                  | EmptyString => None
                  | _ => rmatch p' s acc
                  end
         | EmptyString =>
             match acc with
             | EmptyString => None
             | _ => rmatch p' s acc
             end
         end) EmptyString s
  end.

(** [re.search(p, s).group(1)]: the group of the match at the leftmost
    position that has one; [None] when no position has. *)
Fixpoint re_search (p : list atom) (s : string) : option string :=
  match rmatch p s EmptyString with
  | Some (g, _) => Some g
  | None =>
      match s with
      | String _ s' => re_search p s'
      | EmptyString => None
      end
  end.

(** [re.sub(p, '', s)]: the leftmost matches that do not overlap are
    removed.  [skip] is what is left to remove of the match in progress. *)
Fixpoint re_sub (p : list atom) (skip : nat) (s : string) : string :=
  match s with
  | EmptyString => EmptyString
  | String a s' =>
      match skip with
      | S skip' => re_sub p skip' s'
      | O =>
          match rmatch p s EmptyString with
          | Some (_, rest) =>
              match String.length s - String.length rest with
              | S n => re_sub p n s'
              | O => String a (re_sub p 0 s')
              end
          | None => String a (re_sub p 0 s')
          end
      end
  end.

Definition newline : ascii := ascii_of_N 10.

(** [.] matches every character but the newline. *)
Definition dot (c : ascii) : bool := negb (Ascii.eqb c newline).

(** [[\s\S]] matches every character. *)
Definition any (c : ascii) : bool := true.

End Re.

(* ================================================================== *)
(** * resolver.py *)
(* ================================================================== *)

Module Resolver.
Import Re.

(** [r'{name}\s*\:\s(.+)\n'.format(name=pref)] *)
Definition pattern (pref : string) : list atom :=
  [Lit pref; Star isspace; Lit ":"; One isspace; GroupPlus dot;
   Lit (String newline EmptyString)].

(** ** The field names: preferences_model.py *)

(** [to_camel] *)
Definition to_camel (parameter : string) : string :=
  let to_list := map capitalize (split "_" parameter) in
  let to_list :=
    if existsb (String.eqb "") to_list
    then map (fun element => if String.eqb element "" then "_" else element) to_list
    else to_list in
  join to_list.

(** The fields of [BaseParameters]. *)
Definition base_parameters_fields : list string :=
  ["cim_session"; "throttle_limit"; "as_job"].

(** The fields of [MpPreferencesModel] in the order of the model's schema:
    the inherited ones first ([throttle_limit], declared again in the class,
    keeps its place), then the class's own. *)
Definition mp_preferences_fields : list string :=
  (base_parameters_fields ++
  ["exclusion_path"; "exclusion_extension"; "exclusion_process";
   "real_time_scan_direction"; "quarantine_purge_items_after_delay";
   "remediation_schedule_day"; "remediation_schedule_time";
   "reporting_additional_action_time_out";
   "reporting_critical_failure_time_out"; "reporting_non_critical_time_out";
   "scan_avg_c_p_u_load_factor"; "check_for_signatures_before_running_scan";
   "scan_purge_items_after_delay"; "scan_only_if_idle_enabled";
   "scan_parameters"; "scan_schedule_day"; "scan_schedule_quick_scan_time";
   "scan_schedule_time"; "signature_first_au_grace_period";
   "signature_au_grace_period";
   "signature_definition_update_file_shares_sources";
   "signature_disable_update_on_startup_without_engine";
   "signature_fallback_order"; "signature_schedule_day";
   "signature_schedule_time"; "signature_update_catchup_interval";
   "signature_update_interval"; "m_a_p_s_reporting";
   "submit_samples_consent"; "disable_auto_exclusions";
   "disable_privacy_mode"; "randomize_schedule_task_times";
   "disable_behavior_monitoring"; "disable_i_o_a_v_protection";
   "disable_realtime_monitoring"; "disable_script_scanning";
   "disable_archive_scanning"; "disable_catchup_full_scan";
   "disable_catchup_quick_scan"; "disable_cpu_throttle_on_idle_scans";
   "disable_email_scanning"; "disable_removable_drive_scanning";
   "disable_restore_point";
   "disable_scanning_mapped_network_drives_for_full_scan";
   "disable_scanning_network_files"; "u_i_lockdown";
   "threat_i_d_default_action__ids"; "threat_i_d_default_action__actions";
   "unknown_threat_default_action"; "low_threat_default_action";
   "moderate_threat_default_action"; "high_threat_default_action";
   "severe_threat_default_action"; "disable_block_at_first_seen";
   "p_u_a_protection"; "definition_updates_channel";
   "engine_updates_channel"; "platform_updates_channel"])%list.

(** ** resolver.py *)

(** [get_mp_prefs_list]: the keys of the schema's properties are the
    aliases, which [alias_generator = to_camel] makes.  (The [except]
    branch needs a model without a schema; this one has it.) *)
Definition get_mp_prefs_list : outcome (list string) :=
  Ret (map to_camel mp_preferences_fields).

Definition get_status_pref_list : outcome (list string) :=
  Ret ["AntivirusSignatureLastUpdated"; "AntivirusSignatureVersion";
       "AntivirusEnabled"].

(** The dict [get_prefs_list] under [.get(event)]: [None] for a missing
    key. *)
Definition get_prefs_list (event : string) : option (outcome (list string)) :=
  if String.eqb event "Get-MpPreference" then Some get_mp_prefs_list
  else if String.eqb event "Get-MpComputerStatus" then Some get_status_pref_list
  else None.

Record pref_record : Type := mkPref { pref_name : string; pref_val : string }.

(** [rslt.group(1).replace('{', '').replace('}', '').strip().rstrip()] *)
Definition clean_value (group1 : string) : string :=
  rstrip (strip (remove_char "}" (remove_char "{" group1))).

(** The value of [tmp_value] after the [isdigit] branch. *)
Definition convert (tmp_value : string) : outcome string :=
  if isdigit tmp_value
  then obind (int tmp_value) (fun n => Ret (hex n))
  else Ret tmp_value.

(** One turn of the [for] loop, on the list built so far. *)
Definition resolve_step (raw_prefs : string) (parsed_prefs : list pref_record)
    (pref : string) : outcome (list pref_record) :=
  match re_search (pattern pref) raw_prefs with
  | Some group1 =>
      obind (convert (clean_value group1)) (fun tmp_value =>
        Ret (parsed_prefs ++ [mkPref pref tmp_value])%list)
  | None => Ret parsed_prefs
  end.

Fixpoint resolve_loop (raw_prefs : string) (prefs : list string)
    (parsed_prefs : list pref_record) : outcome (list pref_record) :=
  match prefs with
  | [] => Ret parsed_prefs
  | pref :: rest =>
      obind (resolve_step raw_prefs parsed_prefs pref)
            (resolve_loop raw_prefs rest)
  end.

(** [resolve_preferences]: calling the [None] that [.get] gives for an
    event without a list is a [TypeError]. *)
Definition resolve_preferences (raw_prefs event : string)
    : outcome (list pref_record) :=
  match get_prefs_list event with
  | None => Raise (mkExn TypeError "'NoneType' object is not callable")
  | Some getter => obind getter (fun prefs => resolve_loop raw_prefs prefs [])
  end.

(** ** Notions used to state the properties *)

(** The group of the match of [p] at the start of [s]. *)
Definition group_at (p : list atom) (s : string) : option string :=
  option_map fst (rmatch p s EmptyString).

(** The value that the loop holds for [pref] before the [isdigit] test, when
    the pattern matches. *)
Definition captured (raw_prefs pref : string) : option string :=
  option_map clean_value (re_search (pattern pref) raw_prefs).

Definition nl : string := String newline EmptyString.

(** The line of the second end-to-end scenario. *)
Definition scan_parameters_line : string := "ScanParameters : 1" ++ nl.

(** A superscript digit: passes [isdigit], not read by [int]. *)
Definition superscript (c : ascii) : bool :=
  isdigit_char c && negb (isdecimal c).

Definition plain (c : ascii) : bool := negb (superscript c).

Fixpoint take_while (cls : ascii -> bool) (s : string) : string :=
  match s with
  | String a s' => if cls a then String a (take_while cls s') else EmptyString
  | EmptyString => EmptyString
  end.

Fixpoint drop_while (cls : ascii -> bool) (s : string) : string :=
  match s with
  | String a s' => if cls a then drop_while cls s' else s
  | EmptyString => EmptyString
  end.

Definition starts_with (cls : ascii -> bool) (s : string) : bool :=
  match s with
  | String a _ => cls a
  | EmptyString => false
  end.

(** The greedy group followed by [p']: the longest run of [cls] after
    [acc], if the two are not empty together. *)
Definition plus_spec (cls : ascii -> bool) (p' : list atom)
    (acc s : string) : option (string * string) :=
  match acc ++ take_while cls s with
  | EmptyString => None
  | g => rmatch p' (drop_while cls s) g
  end.

(** [line_at pref s g]: [s] begins with [pref], blanks, a colon, one blank,
    the non-empty newline-free text [g] and a newline. *)
Definition line_at (pref s g : string) : Prop :=
  exists ws w rest,
    s = pref ++ ws ++ ":" ++ String w (g ++ String newline rest) /\
    all_chars isspace ws = true /\ isspace w = true /\
    all_chars dot g = true /\ g <> EmptyString.

End Resolver.

(* ================================================================== *)
(** * config_handler.py, pwsh_client.py, pwsh_handler.py *)
(* ================================================================== *)

Module Dispatcher.
Import Re Resolver.

(** ** Data *)

(** [RoutePublish] of config_route.py *)
Record RoutePublish : Type := mkRoute {
  exchange : string;
  routing_key : option string;
  exchange_type : string;
  auto_ack : bool;
  queue_name : option string
}.

(** [PowerShellConfig] *)
Record PowerShellConfig : Type := mkConfig {
  username : string;
  key_path : string;
  program : string;
  route_publish : option (list RoutePublish)
}.

(** A decoded JSON document, as [json.loads] gives it. *)
#[local] Unset Elimination Schemes.
Inductive json : Type :=
  | JNull
  | JBool (b : bool)
  | JInt (z : Z)
  | JFloat (text : string)
  | JStr (s : string)
  | JArr (items : list json)
  | JObj (members : list (string * json)).
#[local] Set Elimination Schemes.

(** [BodyModel] of preferences_model.py *)
Record BodyModel : Type := mkBody {
  hostnames : list string;
  task_id : Z;
  event : string;
  preferences : list (string * json)
}.

(** [COMMANDS_IN_USE] of pwsh_commands.py *)
Definition COMMANDS_IN_USE : list string :=
  ["Set-MpPreference"; "Start-MpScan"; "Update-MpSignature";
   "Get-MpPreference"; "Get-MpComputerStatus"].

(** The instance state of a [PwshClient]. *)
Record PwshClient : Type := mkClient {
  cmd : list string;
  key : string;
  client_username : string
}.

(** The bodies that the handler publishes. *)
Inductive message : Type :=
  | TaskAccepted (task : Z)                          (* {'task_id': ...} *)
  | ErrorNotice (host_ip text category : string)     (* host_ip, message, category *)
  | Preferences (host_ip : string) (prefs : list pref_record).

(** The [destination] dict that [doing_publish] builds. *)
Record destination : Type := mkDest {
  d_routing_key : option string;
  d_exchange : string;
  d_exchange_type : string
}.

(** What a run does to its surroundings, in order. *)
Inductive action : Type :=
  | Logged (text : string)                        (* a logger call *)
  | Published (dest : destination) (body : message) (* await self.publisher(...) *)
  | Exec (argv : list string)                     (* create_subprocess_exec on the list *).

(** A task given to [loop.create_task]: the arguments of
    [process_invoking_command]; the client is a reference into the store. *)
Record task : Type := mkTask {
  t_client : nat;
  t_body : BodyModel;
  t_hostname : string
}.

(** The objects a run can reach: the [PwshClient] instances, by reference,
    and the tasks handed to the event loop. *)
Record state : Type := mkState {
  clients : list PwshClient;
  loop_tasks : list task
}.

(** What a spawned process does. *)
Inductive process_result : Type :=
  | SpawnError (e : exn)               (* create_subprocess_exec raises *)
  | CommunicateError (e : exn)         (* process.communicate() raises *)
  | Output (out err : string)          (* the two decoded streams *).

(** The collaborators outside the repository: the JSON decoder, pydantic's
    field validators, the validated parameter dict of a command and the
    spawned process. *)
Record environment : Type := mkEnv {
  json_loads : string -> outcome json;
  str_validator : json -> option string;
  int_validator : json -> option Z;
  list_validator : json -> option (list json);
  dict_validator : json -> option (list (string * json));
  (* the dict of the event's model built from the preferences, unset fields
     excluded, keys by alias, each value as [format] renders it *)
  model_dict : string -> list (string * json) -> outcome (list (string * string));
  run_process : list string -> process_result
}.

(** ** Programs: state, actions and exceptions *)

Definition prog (A : Type) : Type := state -> list action * state * outcome A.

Definition ret {A} (a : A) : prog A := fun s => ([], s, Ret a).

Definition bind {A B} (m : prog A) (f : A -> prog B) : prog B :=
  fun s =>
    match m s with
    | (t1, s1, Ret a) =>
        match f a s1 with
        | (t2, s2, r) => ((t1 ++ t2)%list, s2, r)
        end
    | (t1, s1, Raise e) => (t1, s1, Raise e)
    end.

Definition raise {A} (e : exn) : prog A := fun s => ([], s, Raise e).

Definition lift {A} (o : outcome A) : prog A := fun s => ([], s, o).

Definition emit (a : action) : prog unit := fun s => ([a], s, Ret tt).

Definition get : prog state := fun s => ([], s, Ret s).

Definition put (s : state) : prog unit := fun _ => ([], s, Ret tt).

(** [try: m  except Exception as e: h e] *)
Definition try_except {A} (m : prog A) (h : exn -> prog A) : prog A :=
  fun s =>
    match m s with
    | (t1, s1, Raise e) =>
        match h e s1 with
        | (t2, s2, r) => ((t1 ++ t2)%list, s2, r)
        end
    | done => done
    end.

Declare Scope prog_scope.
Delimit Scope prog_scope with prog.
Notation "x <- m ;; k" := (bind m (fun x => k))
  (at level 61, m at next level, right associativity) : prog_scope.
Notation "m ;; k" := (bind m (fun _ => k))
  (at level 61, right associativity) : prog_scope.
Open Scope prog_scope.

Definition trace_of {A} (r : list action * state * outcome A) : list action :=
  fst (fst r).
Definition state_of {A} (r : list action * state * outcome A) : state :=
  snd (fst r).
Definition outcome_of {A} (r : list action * state * outcome A) : outcome A :=
  snd r.

(** ** pwsh_client.py *)

(** [bad_patterns]; [\d] matches the decimal digits, and the escapes of
    [~], [|] and [[] stand for the characters. *)
Definition bad_patterns : list (list atom) :=
  [ [Lit "__ClassMetadata"; Plus any; Lit "}}"];
    [Lit "Creating"; Plus any; Lit "remaining"; One dot];
    [Lit "0/1 completed"; Plus any; Lit "Quick Scan"];
    [Lit (String (ascii_of_N 27) EmptyString)];
    [Lit "["; Plus isdecimal; Lit "m"; Star (Ascii.eqb "A")];
    [Plus (Ascii.eqb "~")];
    [Lit "|,"] ].

(** [source.replace('  ', '')] *)
Fixpoint remove_double_spaces (source : string) : string :=
  match source with
  | String a (String b rest as tail) =>
      if Ascii.eqb a " " && Ascii.eqb b " " then remove_double_spaces rest
      else String a (remove_double_spaces tail)
  | other => other
  end.

(** [clean_output] *)
Definition clean_output (source : string) : string :=
  remove_double_spaces
    (fold_left (fun source pattern => re_sub pattern 0 source)
               bad_patterns source).

Section WithEnvironment.
Variable env : environment.

(** [__init__] *)
Definition new_client (config : PowerShellConfig) : PwshClient :=
  mkClient [program config; "-command"] (key_path config) (username config).

(** [PwshClient(config)]: a new instance in the store, and its reference. *)
Definition PwshClient_init (config : PowerShellConfig) : prog nat :=
  s <- get ;;
  put (mkState (clients s ++ [new_client config])%list (loop_tasks s)) ;;
  ret (List.length (clients s)).

Definition set_nth {A} (n : nat) (x : A) (l : list A) : list A :=
  (firstn n l ++ match skipn n l with
                 | [] => []
                 | _ :: tl => x :: tl
                 end)%list.

(** The instance behind a reference.  (A reference outside the store has
    no counterpart in Python, where a name always leads to its object; the
    second branch only makes the function total.) *)
Definition deref (self : nat) : prog PwshClient :=
  s <- get ;;
  match nth_error (clients s) self with
  | Some c => ret c
  | None => raise (mkExn AttributeError "no such client")
  end.

Definition R_NEW_MP_SESSION (user_host key : string) : string :=
  nl ++ "    $session = New-PSSession -HostName " ++ user_host
     ++ " -KeyFilePath " ++ key ++ nl.

Definition R_INVOKE_COMMAND (command : string) : string :=
  nl ++ "    Invoke-Command -Session $session -ScriptBlock {" ++ command ++ "}" ++ nl.

(** [run]: the script is appended to the instance's [cmd], then the whole
    list is executed. *)
Definition run (self : nat) (script : string) : prog (string * string) :=
  c <- deref self ;;
  s <- get ;;
  let cmd' := (cmd c ++ [script])%list in
  put (mkState (set_nth self (mkClient cmd' (key c) (client_username c)) (clients s))
               (loop_tasks s)) ;;
  emit (Exec cmd') ;;
  match run_process env cmd' with
  | SpawnError e => raise e
  | CommunicateError e =>
      emit (Logged ("Subprocess communicate error. " ++ exn_str e)) ;;
      raise e
  | Output out err => ret (clean_output out, clean_output err)
  end.

Definition create_script (c : PwshClient) (hostname command : string)
    (prefs : list (string * string)) : string :=
  let command :=
    fold_left (fun command kv => command ++ " -" ++ fst kv ++ " " ++ snd kv)
              prefs command in
  R_NEW_MP_SESSION (client_username c ++ "@" ++ hostname) (key c)
  ++ nl ++ R_INVOKE_COMMAND command.

Definition invoke_command (self : nat) (hostname command : string)
    (prefs : list (string * string)) : prog (string * string) :=
  c <- deref self ;;
  run self (create_script c hostname command prefs).

(** ** pwsh_handler.py *)

Definition ERROR_CAT : string := "__PowerShell error".
Definition ERROR_MSG (text : string) : string :=
  "Invoke PowerShell command error. " ++ text.

Fixpoint lookup (k : string) (d : list (string * json)) : option json :=
  match d with
  | [] => None
  | (k', v) :: d' => if String.eqb k k' then Some v else lookup k d'
  end.

Fixpoint all_some {A} (l : list (option A)) : option (list A) :=
  match l with
  | [] => Some []
  | Some a :: l' => option_map (cons a) (all_some l')
  | None :: _ => None
  end.

(** [_event_valid] *)
Definition event_valid (f_value : string) : option string :=
  if existsb (String.eqb f_value) COMMANDS_IN_USE then Some f_value else None.

(** The four fields of [BodyModel], [None] when the field is rejected. *)
Definition field_hostnames (kw : list (string * json)) : option (list string) :=
  match lookup "hostnames" kw with
  | Some v =>
      match list_validator env v with
      | Some items => all_some (map (str_validator env) items)
      | None => None
      end
  | None => None
  end.

Definition field_task_id (kw : list (string * json)) : option Z :=
  match lookup "task_id" kw with
  | Some v => int_validator env v
  | None => None
  end.

Definition field_event (kw : list (string * json)) : option string :=
  match lookup "event" kw with
  | Some v =>
      match str_validator env v with
      | Some s => event_valid s
      | None => None
      end
  | None => None
  end.

Definition field_preferences (kw : list (string * json))
    : option (list (string * json)) :=
  match lookup "preferences" kw with
  | Some v => dict_validator env v
  | None => Some []
  end.

(** The constructor of [BodyModel] on the decoded document: [TypeError]
    when the document is not a mapping, pydantic's [ValidationError] when a
    field is rejected. *)
Definition BodyModel_init (kwargs : json) : outcome BodyModel :=
  match kwargs with
  | JObj kw =>
      match field_hostnames kw, field_task_id kw, field_event kw,
            field_preferences kw with
      | Some h, Some t, Some e, Some p => Ret (mkBody h t e p)
      | _, _, _, _ => Raise (mkExn ValidationError "validation error for BodyModel")
      end
  | _ => Raise (mkExn TypeError "argument after ** must be a mapping")
  end.

(** [get_body]: the body, or [None] after logging. *)
Definition get_body (raw_body : string) : prog (option BodyModel) :=
  match obind (json_loads env raw_body) BodyModel_init with
  | Ret body => ret (Some body)
  | Raise e =>
      emit (Logged ("Error: could not load json body. " ++ exn_str e)) ;;
      ret None
  end.

(** [_check_routes] *)
Definition check_routes (config : PowerShellConfig) : outcome unit :=
  match route_publish config with
  | None => Raise (mkExn TypeError "object of type 'NoneType' has no len()")
  | Some routes =>
      if Nat.eqb (List.length routes) 4 then Ret tt
      else Raise (mkExn ValueError "There are not all routes")
  end.

(** [self.config.route_publish[i]] *)
Definition route_at (config : PowerShellConfig) (i : nat) : prog RoutePublish :=
  match route_publish config with
  | None => raise (mkExn TypeError "'NoneType' object is not subscriptable")
  | Some routes =>
      match nth_error routes i with
      | Some r => ret r
      | None => raise (mkExn IndexError "list index out of range")
      end
  end.

Definition destination_of (route : RoutePublish) : destination :=
  mkDest (routing_key route) (exchange route) (exchange_type route).

(** [doing_publish]: the call of [self.publisher].  The publisher is a
    parameter of the handler; the model takes one that returns. *)
Definition doing_publish (body : message) (route : RoutePublish) : prog unit :=
  emit (Published (destination_of route) body).

(** [loop.create_task(...)] *)
Definition create_task (t : task) : prog unit :=
  s <- get ;;
  put (mkState (clients s) (loop_tasks s ++ [t])%list).

Fixpoint for_each {A} (l : list A) (body : A -> prog unit) : prog unit :=
  match l with
  | [] => ret tt
  | x :: l' => body x ;; for_each l' body
  end.

(** [call_handler]: reading [task_id] off the [None] that [get_body] gives
    after a failure is an [AttributeError], raised while the arguments of
    the first [doing_publish] are evaluated. *)
Definition call_handler (config : PowerShellConfig) (raw_body : string)
    : prog unit :=
  decrypted_body <- get_body raw_body ;;
  match decrypted_body with
  | None =>
      raise (mkExn AttributeError "'NoneType' object has no attribute 'task_id'")
  | Some body =>
      route <- route_at config 1 ;;
      doing_publish (TaskAccepted (task_id body)) route ;;
      for_each (hostnames body) (fun hostname =>
        client <- PwshClient_init config ;;
        create_task (mkTask client body hostname))
  end.

(** The [try] block of [process_invoking_command]: the parameters are
    validated, then the command is invoked. *)
Definition invoking (client : nat) (decrypted_body : BodyModel)
    (hostname : string) : prog (string * string) :=
  prefs <- lift (model_dict env (event decrypted_body)
                            (preferences decrypted_body)) ;;
  invoke_command client hostname (event decrypted_body) prefs.

Definition nonempty (s : string) : bool :=
  match s with
  | EmptyString => false
  | _ => true
  end.

(** [process_invoking_command] *)
Definition process_invoking_command (config : PowerShellConfig) (client : nat)
    (decrypted_body : BodyModel) (hostname : string) : prog unit :=
  out_err <-
    try_except (invoking client decrypted_body hostname)
      (fun exception =>
         emit (Logged ("Error: invoke PowerShell command. Body: "
                       ++ exn_str exception)) ;;
         route <- route_at config 0 ;;
         doing_publish (ErrorNotice hostname (ERROR_MSG (exn_str exception))
                                    ERROR_CAT) route ;;
         raise exception) ;;
  let out := fst out_err in
  let err := snd out_err in
  (if nonempty out then
     prefs <- lift (resolve_preferences out (event decrypted_body)) ;;
     let msg := Preferences hostname prefs in
     if String.eqb (event decrypted_body) "Get-MpPreference" then
       route <- route_at config 2 ;;
       doing_publish msg route
     else if String.eqb (event decrypted_body) "Get-MpComputerStatus" then
       route <- route_at config 3 ;;
       doing_publish msg route
     else ret tt
   else ret tt) ;;
  if nonempty err && Nat.ltb 1 (String.length err) then
    route <- route_at config 0 ;;
    doing_publish (ErrorNotice hostname (ERROR_MSG err) ERROR_CAT) route
  else ret tt.

Definition run_task (config : PowerShellConfig) (t : task) : prog unit :=
  process_invoking_command config (t_client t) (t_body t) (t_hostname t).

End WithEnvironment.

(** ** The event loop *)


(** The tasks that [call_handler] creates from a store of [n] clients. *)
Fixpoint spawned (n : nat) (body : BodyModel) (hosts : list string) : list task :=
  match hosts with
  | [] => []
  | h :: hosts' => mkTask n body h :: spawned (S n) body hosts'
  end.

(** The tasks that a run added to the loop. *)
Definition created (before after : state) : list task :=
  skipn (List.length (loop_tasks before)) (loop_tasks after).

Definition is_published (a : action) : bool :=
  match a with
  | Published _ _ => true
  | _ => false
  end.


Definition is_error_notice (a : action) : bool :=
  match a with
  | Published _ (ErrorNotice _ _ _) => true
  | _ => false
  end.

Definition is_preferences (a : action) : bool :=
  match a with
  | Published _ (Preferences _ _) => true
  | _ => false
  end.


Definition is_exec (a : action) : bool :=
  match a with
  | Exec _ => true
  | _ => false
  end.

Definition count (p : action -> bool) (tr : list action) : nat :=
  List.length (filter p tr).

(** The error notification for [hostname] with the text [text]. *)
Definition error_notice (route : RoutePublish) (hostname text : string) : action :=
  Published (destination_of route) (ErrorNotice hostname (ERROR_MSG text) ERROR_CAT).

(** ** A concrete setting, to run the definitions *)

Definition strict_str (v : json) : option string :=
  match v with
  | JStr s => Some s
  | _ => None
  end.

Definition strict_int (v : json) : option Z :=
  match v with
  | JInt z => Some z
  | _ => None
  end.

Definition strict_list (v : json) : option (list json) :=
  match v with
  | JArr items => Some items
  | _ => None
  end.

Definition strict_dict (v : json) : option (list (string * json)) :=
  match v with
  | JObj members => Some members
  | _ => None
  end.

(** An environment in which every body decodes to [doc], every command has
    no parameters and every process ends with [result]. *)
Definition sample_env (doc : outcome json) (result : process_result)
    : environment :=
  mkEnv (fun _ => doc) strict_str strict_int strict_list strict_dict
        (fun _ _ => Ret []) (fun _ => result).

Definition sample_route (name : string) : RoutePublish :=
  mkRoute name (Some name) "direct" true None.

Definition sample_config : PowerShellConfig :=
  mkConfig "admin" "/etc/key" "pwsh"
           (Some [sample_route "event.common"; sample_route "event.notify";
                  sample_route "settings_changed"; sample_route "mon"]).

(** The job of the first end-to-end scenario, for [event]. *)
Definition sample_job (event : string) : json :=
  JObj [("hostnames", JArr [JStr "h1"; JStr "h2"]); ("task_id", JInt 42);
        ("event", JStr event); ("preferences", JObj [])].

Definition empty_state : state := mkState [] [].

Definition status_output : string := "AntivirusEnabled : True" ++ nl.

Definition sample_body (event : string) : BodyModel :=
  mkBody ["h1"; "h2"] 42 event [].

Definition one_client : state := mkState [new_client sample_config] [].

End Dispatcher.

(* ================================================================== *)
(** * service_framework/broker/rabbit_broker_async.py *)
(* ================================================================== *)

Module Broker.

(** ** [except] clauses *)

(** The base classes: those of aiormq.exceptions for the AMQP classes (which
    aio_pika re-exports), the built-in ones for the rest ([LookupError],
    between [IndexError] and [Exception], is left out). *)
Definition bases (c : exc_class) : list exc_class :=
  match c with
  | Exception => []
  | ConnectionError => [OSError]
  | NotImplementedError => [RuntimeError]
  | ValidationError | JSONDecodeError => [ValueError]
  | AMQPConnectionError => [AMQPError; ConnectionError]
  | AuthenticationError | ConnectionClosed => [AMQPConnectionError]
  | AMQPChannelError => [AMQPError]
  | ChannelClosed => [AMQPChannelError]
  | ChannelNotFoundEntity | ChannelPreconditionFailed => [ChannelClosed]
  | ChannelInvalidStateError => [RuntimeError]
  | _ => [Exception]
  end.

Fixpoint issubclass_upto (depth : nat) (c d : exc_class) : bool :=
  exc_class_eqb c d ||
  match depth with
  | O => false
  | S depth' => existsb (fun b => issubclass_upto depth' b d) (bases c)
  end.

(** No chain of base classes is longer than six. *)
Definition issubclass (c d : exc_class) : bool := issubclass_upto 6 c d.

(** [isinstance(e, classes)] for a tuple of classes: what an [except]
    clause tests. *)
Definition isinstance (e : exn) (classes : list exc_class) : bool :=
  existsb (issubclass (exn_class e)) classes.

(** [AMQPException] is another name of [AMQPError]. *)
Definition AMQPException : exc_class := AMQPError.

Definition CHANNEL_EXCEPTIONS : list exc_class :=
  [ChannelNotFoundEntity; ChannelPreconditionFailed; ChannelInvalidStateError;
   ChannelClosed; AMQPChannelError].

Definition CONNECTION_EXCEPTIONS : list exc_class :=
  [AMQPConnectionError; AMQPError; AMQPException; AuthenticationError;
   ConnectionClosed].

Definition TIMEOUT_SET_UP_CONN : nat := 5.

(** ** The client and the server *)

(** The awaited calls into aio_pika.  The objects they return (connection,
    channel, exchange, queue) are named by numbers. *)
Inductive call : Type :=
  | ConnectRobust
  | OpenChannel (connection : nat)
  | SetQos (channel : nat) (prefetch_count : nat)
  | DeclareExchange (channel : nat) (name type : string)
  | DeclareQueue (channel : nat) (name : string)
  | BindQueue (queue : nat) (exchange : string) (routing_key : option string).

(** What an observer sees, in order: the log, the calls, and the sleeps
    with the two flags as they stand while the client sleeps. *)
Inductive entry : Type :=
  | Info (text : string)
  | Error (text : string)
  | Called (c : call)
  | Slept (seconds : nat) (has_connection has_channel : bool).

(** The fields of [RabbitClientAsync]; [calls] counts the calls made so
    far and [history] records what happened. *)
Record client : Type := mkBroker {
  loop : bool;                 (* whether [self.loop] is set *)
  connection : option nat;
  channel : option nat;
  has_connection : bool;
  has_channel : bool;
  calls : nat;
  history : list entry
}.

(** The server's answer to the [n]-th call: [None] when it succeeds. *)
Definition server : Type := nat -> call -> option exn.

Definition record (e : entry) (s : client) : client :=
  mkBroker (loop s) (connection s) (channel s) (has_connection s)
           (has_channel s) (calls s) (history s ++ [e]).

Definition set_connection (c : option nat) (s : client) : client :=
  mkBroker (loop s) c (channel s) (has_connection s) (has_channel s)
           (calls s) (history s).

Definition set_channel (c : option nat) (s : client) : client :=
  mkBroker (loop s) (connection s) c (has_connection s) (has_channel s)
           (calls s) (history s).

Definition set_has_connection (b : bool) (s : client) : client :=
  mkBroker (loop s) (connection s) (channel s) b (has_channel s)
           (calls s) (history s).

Definition set_has_channel (b : bool) (s : client) : client :=
  mkBroker (loop s) (connection s) (channel s) (has_connection s) b
           (calls s) (history s).

(** [await asyncio.sleep(seconds)] *)
Definition sleep (seconds : nat) (s : client) : client :=
  record (Slept seconds (has_connection s) (has_channel s)) s.

(** An awaited call: the object it returns is named by the number of the
    call. *)
Definition request (srv : server) (c : call) (s : client)
    : client * outcome nat :=
  let n := calls s in
  let s' := mkBroker (loop s) (connection s) (channel s) (has_connection s)
                     (has_channel s) (S n) (history s ++ [Called c]) in
  match srv n c with
  | None => (s', Ret n)
  | Some e => (s', Raise e)
  end.

Section WithServer.
Variable srv : server.

(** ** [RabbitClientAsync] *)

(** [create_connection].  [fuel] bounds the depth of the recursion; the
    result is [None] when the bound is reached. *)
Fixpoint create_connection (fuel : nat) (s : client)
    : option (client * outcome unit) :=
  match fuel with
  | O => None
  | S fuel' =>
      let s := record (Info "Starting to set up new connection.") s in
      if loop s then
        match request srv ConnectRobust s with
        | (s, Ret c) =>
            let s := set_connection (Some c) s in
            let s := set_has_connection true s in
            Some (record (Info "Connection was set up") s, Ret tt)
        | (s, Raise con_ex) =>
            let s := set_has_connection false s in
            let s := record (Error ("Setting up connection was failed. "
                                    ++ exn_str con_ex)) s in
            let s := sleep TIMEOUT_SET_UP_CONN s in
            match create_connection fuel' s with
            | None => None
            | Some (s, Raise e) => Some (s, Raise e)
            | Some (s, Ret _) =>
                let s := set_has_connection true s in
                Some (record (Info "Connection was set up") s, Ret tt)
            end
        end
      else
        Some (record (Error "Loop was not created.") s,
              Raise (mkExn NotImplementedError ""))
  end.

(** [create_channel] *)
Definition create_channel (fuel : nat) (s : client)
    : option (client * outcome unit) :=
  match connection s with
  | Some conn =>
      let s := record (Info "Starting to set up new channel.") s in
      match request srv (OpenChannel conn) s with
      | (s, Ret ch) =>
          let s := set_channel (Some ch) s in
          let s := set_has_channel true s in
          match request srv (SetQos ch 100) s with
          | (s, Ret _) => Some (record (Info "Connection was set up.") s, Ret tt)
          | (s, Raise e) => Some (s, Raise e)
          end
      | (s, Raise ch_ex) =>
          if isinstance ch_ex CHANNEL_EXCEPTIONS then
            let s := set_has_connection false s in
            let s := record (Error ("Setting up channel was failed. "
                                    ++ exn_str ch_ex)) s in
            Some (s, Raise ch_ex)
          else
            let s := record (Error ("Setting up channel was failed. "
                                    ++ exn_str ch_ex)) s in
            Some (s, Raise ch_ex)
      end
  | None => create_connection fuel s
  end.

(** [check_connection] *)
Definition check_connection (fuel : nat) (s : client)
    : option (client * outcome unit) :=
  let first :=
    if negb (has_connection s) then
      create_connection fuel
        (record (Error "Error: there is no active connection.") s)
    else Some (s, Ret tt) in
  match first with
  | Some (s, Ret _) =>
      if negb (has_channel s) then
        create_channel fuel
          (record (Error "Error: there is no active channel.") s)
      else Some (s, Ret tt)
  | other => other
  end.

(** ** [RabbitBrokerAsync] *)

Definition STR_CONNECTION_EXCEPTION (text : string) : string :=
  "Connection exception: " ++ text.

Definition STR_CHANNEL_EXCEPTION (text : string) : string :=
  "Channel exception: " ++ text.

(** The three [except] clauses that the declare and bind operations
    share, in their order; [failed] is the text of the last one. *)
Definition handle_fault (failed : string) (e : exn) (s : client) : client :=
  if isinstance e CONNECTION_EXCEPTIONS then
    let s := record (Error (STR_CONNECTION_EXCEPTION (exn_str e))) s in
    let s := set_has_connection false s in
    set_has_channel false s
  else if isinstance e CHANNEL_EXCEPTIONS then
    let s := record (Error (STR_CHANNEL_EXCEPTION (exn_str e))) s in
    set_has_channel false s
  else
    record (Error (failed ++ exn_str e)) s.

(** A method called on an attribute that may be [None]. *)
Definition on_object (obj : option nat) (c : nat -> call) (s : client)
    : client * outcome nat :=
  match obj with
  | Some o => request srv (c o) s
  | None => (s, Raise (mkExn AttributeError "'NoneType' object has no attribute"))
  end.

(** [declare_exchange]: [check_connection], whose exceptions are not caught,
    then the guarded call. *)
Definition declare_exchange (fuel : nat) (exchange_type exchange_name : string)
    (s : client) : option (client * outcome (option nat)) :=
  match check_connection fuel s with
  | None => None
  | Some (s, Raise e) => Some (s, Raise e)
  | Some (s, Ret _) =>
      match on_object (channel s)
              (fun ch => DeclareExchange ch exchange_name exchange_type) s with
      | (s, Ret exchange) => Some (s, Ret (Some exchange))
      | (s, Raise e) =>
          Some (handle_fault "Declaring exchange was failed. " e s, Ret None)
      end
  end.

(** [declare_queue] *)
Definition declare_queue (fuel : nat) (name : string) (s : client)
    : option (client * outcome (option nat)) :=
  match check_connection fuel s with
  | None => None
  | Some (s, Raise e) => Some (s, Raise e)
  | Some (s, Ret _) =>
      match on_object (channel s) (fun ch => DeclareQueue ch name) s with
      | (s, Ret queue) => Some (s, Ret (Some queue))
      | (s, Raise e) =>
          Some (handle_fault "Declaring queue was failed. " e s, Ret None)
      end
  end.

(** [bind_queue]: it returns nothing, on success too. *)
Definition bind_queue (fuel : nat) (queue_object : option nat)
    (exchange : string) (routing_key : option string) (s : client)
    : option (client * outcome (option nat)) :=
  match check_connection fuel s with
  | None => None
  | Some (s, Raise e) => Some (s, Raise e)
  | Some (s, Ret _) =>
      match on_object queue_object
              (fun queue => BindQueue queue exchange routing_key) s with
      | (s, Ret _) => Some (s, Ret None)
      | (s, Raise e) =>
          Some (handle_fault "Biding queue was failed. " e s, Ret None)
      end
  end.

End WithServer.

(** ** Notions used to state the properties *)


(** A client with its connection and channel set up. *)
Definition ready : client := mkBroker true (Some 0) (Some 1) true true 2 [].

(** A client that has a loop and nothing else yet. *)
Definition fresh : client := mkBroker true None None false false 0 [].

(** The client as one failed attempt leaves it, asleep included. *)
Definition after_failure (e : exn) (s : client) : client :=
  mkBroker (loop s) (connection s) (channel s) false (has_channel s) (S (calls s))
    (history s ++ [Info "Starting to set up new connection."; Called ConnectRobust;
                   Error ("Setting up connection was failed. " ++ exn_str e);
                   Slept TIMEOUT_SET_UP_CONN false (has_channel s)]).


(** A server that fails every declaration with [e]. *)
Definition failing_declare (e : exn) : server :=
  fun _ c =>
    match c with
    | DeclareExchange _ _ _ | DeclareQueue _ _ | BindQueue _ _ _ => Some e
    | _ => None
    end.



End Broker.

(* ================================================================== *)
(** * Notions on text and on the client's flags *)
(* ================================================================== *)

Module Notions.
Import Re Resolver.

(** The pattern of [pref] matches somewhere in [raw_prefs]. *)
Definition has_line (raw_prefs pref : string) : bool :=
  match re_search (pattern pref) raw_prefs with
  | Some _ => true
  | None => false
  end.

Definition brace (c : ascii) : bool := Ascii.eqb c "{" || Ascii.eqb c "}".

(** Neither a brace nor a newline. *)
Definition tidy (c : ascii) : bool := negb (brace c) && dot c.

Definition colon (c : ascii) : bool := Ascii.eqb c ":".

(** Neither a blank nor a colon. *)
Definition solid (c : ascii) : bool := negb (isspace c) && negb (colon c).

Definition escape : ascii := ascii_of_N 27.

(** The characters that [clean_output] removes wherever they stand. *)
Definition residue (c : ascii) : bool := Ascii.eqb c escape || Ascii.eqb c "~".

Fixpoint has_double_space (s : string) : bool :=
  match s with
  | String a (String b _ as tail) =>
      (Ascii.eqb a " " && Ascii.eqb b " ") || has_double_space tail
  | _ => false
  end.

(** [embeds s t]: [s] is [t] with some characters left out. *)
Inductive embeds : string -> string -> Prop :=
  | embeds_nil : embeds "" ""
  | embeds_skip a s t : embeds s t -> embeds s (String a t)
  | embeds_keep a s t : embeds s t -> embeds (String a s) (String a t).

(** A client whose flags, when set, have their objects. *)
Definition consistent (s : Broker.client) : Prop :=
  (Broker.has_connection s = true -> Broker.connection s <> None) /\
  (Broker.has_channel s = true -> Broker.channel s <> None).

End Notions.

(* ================================================================== *)
(** * rabbit_broker_async.py: publishing and consuming *)
(* ================================================================== *)

Module Gateway.
Import Broker.

(** ** config_route.py *)

Definition EXCHANGE_TYPES : list string :=
  ["fanout"; "direct"; "topic"; "headers"; "x-delayed-message";
   "x-consistent-hash"].

(** [Route._maps_reporting_valid] *)
Definition maps_reporting_valid (f_value : string) : outcome string :=
  if existsb (String.eqb f_value) EXCHANGE_TYPES then Ret f_value
  else Raise (mkExn ValueError
                ("Wrong value. Acceptable values are: ('fanout', 'direct', "
                 ++ "'topic', 'headers', 'x-delayed-message', 'x-consistent-hash')")).

(** The constructor of [RoutePublish] on the dict that [doing_publish] builds:
    the three keys are given, [auto_ack] and [queue_name] take their
    defaults, and the validator of [exchange_type] is the one that can
    fail; pydantic reports it as a [ValidationError]. *)
Definition RoutePublish_init (destination : Dispatcher.destination)
    : outcome Dispatcher.RoutePublish :=
  match maps_reporting_valid (Dispatcher.d_exchange_type destination) with
  | Ret exchange_type =>
      Ret (Dispatcher.mkRoute (Dispatcher.d_exchange destination)
             (Dispatcher.d_routing_key destination) exchange_type true None)
  | Raise e =>
      Raise (mkExn ValidationError
               ("1 validation error for RoutePublish" ++ Resolver.nl
                ++ "exchange_type" ++ Resolver.nl ++ "  " ++ exn_str e
                ++ " (type=value_error)"))
  end.

(** [RouteConsume] *)
Record RouteConsume : Type := mkConsume {
  exchange : string;
  routing_key : option string;
  exchange_type : string;
  auto_ack : bool;
  queue_name : string
}.

(** ** The broker *)

(** The awaited calls on an exchange and on a queue, next to those of
    [Broker.call]. *)
Inductive transfer : Type :=
  | Publish (exchange : nat) (body : Dispatcher.message)
            (routing_key : option string)
  | Consume (queue : nat).

(** The server's answer to a transfer made as the [n]-th call. *)
Definition carrier : Type := nat -> transfer -> option exn.

(** A [RabbitBrokerAsync]: the client part, the consume route of its
    config, and the transfers made so far, each with its call number. *)
Record broker : Type := mkGateway {
  base : client;
  route_consume : option RouteConsume;
  sent : list (nat * transfer)
}.

Definition with_base (s : client) (b : broker) : broker :=
  mkGateway s (route_consume b) (sent b).

Section WithServer.
Variable srv : server.
Variable car : carrier.

(** An awaited transfer. *)
Definition perform (t : transfer) (b : broker) : broker * outcome nat :=
  let s := base b in
  let n := calls s in
  let s' := mkBroker (loop s) (connection s) (channel s) (has_connection s)
                     (has_channel s) (S n) (history s) in
  let b' := mkGateway s' (route_consume b) (sent b ++ [(n, t)]) in
  match car n t with
  | None => (b', Ret n)
  | Some e => (b', Raise e)
  end.

(** A transfer on an object that may be [None]. *)
Definition on_target (obj : option nat) (method : string)
    (t : nat -> transfer) (b : broker) : broker * outcome nat :=
  match obj with
  | Some o => perform (t o) b
  | None =>
      (b, Raise (mkExn AttributeError
                   ("'NoneType' object has no attribute '" ++ method ++ "'")))
  end.

(** [publish].  The body is one of the handler's messages, which
    [json.dumps] encodes without failing. *)
Definition publish (fuel : nat) (body : Dispatcher.message)
    (destination : Dispatcher.destination) (b : broker)
    : option (broker * outcome unit) :=
  match check_connection srv fuel (base b) with
  | None => None
  | Some (s, Raise e) => Some (with_base s b, Raise e)
  | Some (s, Ret _) =>
      match RoutePublish_init destination with
      | Raise e => Some (with_base s b, Raise e)
      | Ret destination =>
          match declare_exchange srv fuel (Dispatcher.exchange_type destination)
                  (Dispatcher.exchange destination) s with
          | None => None
          | Some (s, Raise e) => Some (with_base s b, Raise e)
          | Some (s, Ret exchange_object) =>
              match on_target exchange_object "publish"
                      (fun ex => Publish ex body (Dispatcher.routing_key destination))
                      (with_base s b) with
              | (b, Ret _) => Some (b, Ret tt)
              | (b, Raise e) =>
                  Some (with_base
                          (handle_fault "Broker publishing is failed. " e (base b)) b,
                        Ret tt)
              end
          end
      end
  end.

(** [consume] *)
Definition consume (fuel : nat) (b : broker) : option (broker * outcome unit) :=
  match check_connection srv fuel (base b) with
  | None => None
  | Some (s, Raise e) => Some (with_base s b, Raise e)
  | Some (s, Ret _) =>
      match route_consume b with
      | None =>
          Some (with_base s b,
                Raise (mkExn AttributeError
                         "'NoneType' object has no attribute 'exchange_type'"))
      | Some route =>
          match declare_exchange srv fuel (exchange_type route) (exchange route) s with
          | None => None
          | Some (s, Raise e) => Some (with_base s b, Raise e)
          | Some (s, Ret _) =>
              match declare_queue srv fuel (queue_name route) s with
              | None => None
              | Some (s, Raise e) => Some (with_base s b, Raise e)
              | Some (s, Ret queue_object) =>
                  match bind_queue srv fuel queue_object (exchange route)
                          (routing_key route) s with
                  | None => None
                  | Some (s, Raise e) => Some (with_base s b, Raise e)
                  | Some (s, Ret _) =>
                      match on_target queue_object "consume" Consume
                              (with_base s b) with
                      | (b, Ret _) => Some (b, Ret tt)
                      | (b, Raise e) =>
                          Some (with_base
                                  (handle_fault "Broker consumption is failed. " e
                                     (base b)) b,
                                Ret tt)
                      end
                  end
              end
          end
      end
  end.

End WithServer.

(** A server and a carrier that accept every call from the [n]-th on. *)
Definition healthy_from (n : nat) (srv : server) (car : carrier) : Prop :=
  forall i, n <= i -> (forall c, srv i c = None) /\ (forall t, car i t = None).

Definition accepting : server := fun _ _ => None.
Definition delivering : carrier := fun _ _ => None.

Definition new_broker (route : option RouteConsume) : broker :=
  mkGateway fresh route [].

(** A broker whose connection and channel are set up. *)
Definition ready_broker : broker := mkGateway ready None [].

Definition jobs_route : RouteConsume :=
  mkConsume "commands" (Some "jobs") "direct" true "jobs".

(** The client after the call [c] was made. *)
Definition called (c : call) (s : client) : client :=
  mkBroker (loop s) (connection s) (channel s) (has_connection s)
           (has_channel s) (S (calls s)) (history s ++ [Called c]).

End Gateway.

(* ================================================================== *)
(** * service_async.py: the routes of a service *)
(* ================================================================== *)

Module Service.
Import Dispatcher.

(** [ServiceConfig] of config_service.py *)
Record ServiceConfig : Type := mkService {
  log_file : string;
  log_level : string;
  type : string;
  routes_file : string;
  identifier : option string;
  broker_config : option (list (string * json));
  handler_config : option (list (string * json))
}.

(** The exceptions of this module: the built-in ones of [Py], and the two
    that [Py] does not list. *)
Inductive failure : Type :=
  | Builtin (e : exn)
  | KeyError (key : string)
  | FileExistsError.

Inductive result (A : Type) : Type :=
  | Done (a : A)
  | Failed (f : failure).
Arguments Done {A} a.
Arguments Failed {A} f.

Definition and_then {A B} (r : result A) (k : A -> result B) : result B :=
  match r with
  | Done a => k a
  | Failed f => Failed f
  end.

(** [obj[key]] for a string key on a decoded JSON value. *)
Definition getitem (obj : json) (key : string) : result json :=
  match obj with
  | JObj members =>
      match lookup key members with
      | Some v => Done v
      | None => Failed (KeyError key)
      end
  | JArr _ =>
      Failed (Builtin (mkExn TypeError "list indices must be integers or slices, not str"))
  | JStr _ =>
      Failed (Builtin (mkExn TypeError "string indices must be integers"))
  | _ => Failed (Builtin (mkExn TypeError "object is not subscriptable"))
  end.

(** What iterating over a decoded JSON value yields: the items of a list,
    the keys of a dict, the characters of a string. *)
Definition iterate (obj : json) : result (list json) :=
  match obj with
  | JArr items => Done items
  | JObj members => Done (map (fun kv => JStr (fst kv)) members)
  | JStr s => Done (map (fun c => JStr (String c EmptyString)) (list_ascii_of_string s))
  | _ => Failed (Builtin (mkExn TypeError "object is not iterable"))
  end.

(** [value == identifier], the identifier being a [str] or [None]. *)
Definition equals_identifier (value : json) (identifier : option string) : bool :=
  match value, identifier with
  | JStr s, Some i => String.eqb s i
  | JNull, None => true
  | _, _ => false
  end.

(** [list(filter(lambda route: route['service'] == identifier, routes))] *)
Fixpoint filter_service (identifier : option string) (routes : list json)
    : result (list json) :=
  match routes with
  | [] => Done []
  | route :: rest =>
      and_then (getitem route "service") (fun service =>
      and_then (filter_service identifier rest) (fun kept =>
        Done (if equals_identifier service identifier then route :: kept else kept)))
  end.

(** [l[0]] *)
Definition first {A} (l : list A) : result A :=
  match l with
  | a :: _ => Done a
  | [] => Failed (Builtin (mkExn IndexError "list index out of range"))
  end.

(** [d[key] = value] on a dict that may be [None]. *)
Fixpoint set_key (key : string) (value : json) (d : list (string * json))
    : list (string * json) :=
  match d with
  | [] => [(key, value)]
  | (k, v) :: d' =>
      if String.eqb key k then (k, value) :: d' else (k, v) :: set_key key value d'
  end.

Definition setitem (d : option (list (string * json))) (key : string) (value : json)
    : result (list (string * json)) :=
  match d with
  | Some members => Done (set_key key value members)
  | None =>
      Failed (Builtin (mkExn TypeError
                         "'NoneType' object does not support item assignment"))
  end.

Definition failure_str (f : failure) : string :=
  match f with
  | Builtin e => exn_str e
  | KeyError key => "'" ++ key ++ "'"
  | FileExistsError => ""
  end.

Definition set_broker_config (d : list (string * json)) (c : ServiceConfig)
    : ServiceConfig :=
  mkService (log_file c) (log_level c) (type c) (routes_file c) (identifier c)
            (Some d) (handler_config c).

Definition set_handler_config (d : list (string * json)) (c : ServiceConfig)
    : ServiceConfig :=
  mkService (log_file c) (log_level c) (type c) (routes_file c) (identifier c)
            (broker_config c) (Some d).

Definition one_of (s : string) (l : list string) : bool := existsb (String.eqb s) l.

(** [load_routes]: [file] is the text of the routes file, [None] when the
    path does not exist. *)
Definition load_routes (json_loads : string -> outcome json) (file : option string)
    : list string * result json :=
  match file with
  | Some text =>
      match json_loads text with
      | Ret loaded_routes => ([], Done loaded_routes)
      | Raise e => (["Error getting queue configuration"], Failed (Builtin e))
      end
  | None => (["Queue settings file does not exists."], Failed FileExistsError)
  end.

(** The expression of the first [try] block of [_take_routes]:
    [list(filter(...))[0]['routes']] *)
Definition find_routes (identifier : option string) (loaded_routes : json)
    : result json :=
  and_then (iterate loaded_routes) (fun items =>
  and_then (filter_service identifier items) (fun kept =>
  and_then (first kept) (fun entry => getitem entry "routes"))).

(** [_take_routes]: the log, the configuration as the method leaves it, and
    the exception if it raises one. *)
Definition take_routes (json_loads : string -> outcome json) (file : option string)
    (config : ServiceConfig) : list string * ServiceConfig * option failure :=
  let (log, loaded) := load_routes json_loads file in
  match and_then loaded (find_routes (identifier config)) with
  | Failed _ =>
      ((log ++ ["Routes was not provided."])%list, config,
       Some (Builtin (mkExn ValueError "Routes was not provided.")))
  | Done routes =>
      let consumed :=
        if one_of (type config) ["consumer"; "all"] then
          match and_then (getitem routes "consume")
                         (setitem (broker_config config) "route_consume") with
          | Done d => (log, set_broker_config d config, None)
          | Failed f =>
              ((log ++ [("Error getting consume route. " ++ failure_str f)%string])%list,
               config, Some f)
          end
        else (log, config, None) in
      match consumed with
      | (log, config, Some f) => (log, config, Some f)
      | (log, config, None) =>
          if one_of (type config) ["publisher"; "all"] then
            match and_then (getitem routes "publish")
                           (setitem (handler_config config) "route_publish") with
            | Done d => (log, set_handler_config d config, None)
            | Failed f =>
                ((log ++ [("Error while filtering publish queues. "
                             ++ failure_str f)%string])%list,
                 config, Some f)
            end
          else (log, config, None)
      end
  end.

(** An entry of the routes file for [service]. *)
Definition service_entry (service : string) (routes : json) : json :=
  JObj [("service", JStr service); ("routes", routes)].

(** A configuration of the service [pwsh] with empty broker and handler
    configurations. *)
Definition sample_service (type : string) : ServiceConfig :=
  mkService "/var/log" "DEBUG" type "routes.json" (Some "pwsh") (Some []) (Some []).

End Service.

(* ================================================================== *)
(** * Properties *)
(* ================================================================== *)

Module ResolverFacts.
Import Re Resolver.

(** ** Strings *)

Lemma append_nil_r s : s ++ "" = s.
Proof. induction s; simpl; congruence. Qed.

Lemma append_assoc (a b c : string) : (a ++ b) ++ c = a ++ b ++ c.
Proof. induction a; simpl; congruence. Qed.

(** ** Greedy repetitions

    When what follows a repetition cannot start with a character of its
    class, backtracking never helps: the repetition takes the longest run. *)

Section Atoms.
Variables (cls : ascii -> bool) (p' : list atom).
Hypothesis blocked :
  forall a s' g, cls a = true -> rmatch p' (String a s') g = None.

Lemma rmatch_star s g :
  rmatch (Star cls :: p') s g = rmatch p' (drop_while cls s) g.
Proof.
  induction s as [|a s IH]; [reflexivity|].
  simpl in *. destruct (cls a) eqn:E; [|reflexivity].
  rewrite IH. destruct (rmatch p' (drop_while cls s) g); [reflexivity|].
  now apply blocked.
Qed.

Lemma rmatch_plus_acc s : forall acc,
  (fix plus (acc s : string) : option (string * string) :=
       match s with
       | String a s' =>
           if cls a then
             match plus (acc ++ String a EmptyString) s' with
             | Some r => Some r
             | None =>
                 match acc with
                 | EmptyString => None
                 | _ => rmatch p' s acc
                 end
             end
           else match acc with
                | EmptyString => None
                | _ => rmatch p' s acc
                end
       | EmptyString =>
           match acc with
           | EmptyString => None
           | _ => rmatch p' s acc
           end
       end) acc s = plus_spec cls p' acc s.
Proof.
  induction s as [|a s IH]; intros acc; unfold plus_spec.
  - simpl. rewrite append_nil_r. destruct acc; reflexivity.
  - simpl. destruct (cls a) eqn:E.
    + rewrite IH. unfold plus_spec. rewrite append_assoc. simpl.
      destruct (acc ++ String a (take_while cls s)) eqn:E2.
      { destruct acc; discriminate. }
      destruct (rmatch p' (drop_while cls s) (String a0 s0)); [reflexivity|].
      destruct acc; [reflexivity|]. now apply blocked.
    + rewrite append_nil_r. destruct acc; reflexivity.
Qed.

Lemma rmatch_plus s g0 :
  rmatch (GroupPlus cls :: p') s g0 =
  match take_while cls s with
  | EmptyString => None
  | g => rmatch p' (drop_while cls s) g
  end.
Proof.
  simpl. rewrite rmatch_plus_acc. unfold plus_spec. simpl.
  destruct (take_while cls s); reflexivity.
Qed.
End Atoms.

Lemma re_search_eq p s :
  re_search p s =
  match group_at p s with
  | Some g => Some g
  | None =>
      match s with
      | String _ s' => re_search p s'
      | EmptyString => None
      end
  end.
Proof.
  unfold group_at. destruct s; cbn [re_search];
    destruct (rmatch p _ "") as [[g r]|]; reflexivity.
Qed.

Lemma strip_prefix_iff l : forall s r, strip_prefix l s = Some r <-> s = l ++ r.
Proof.
  induction l as [|a l IH]; intros s r; simpl.
  - split; [intros [= ->]; reflexivity | intros ->; reflexivity].
  - destruct s as [|b s]; [split; discriminate|].
    destruct (Ascii.eqb_spec a b) as [->|N].
    + rewrite IH. split; [intros ->; reflexivity | intros [= ->]; reflexivity].
    + split; [discriminate | intros [= E _]; congruence].
Qed.

Lemma strip_prefix_app l r : strip_prefix l (l ++ r) = Some r.
Proof. now apply strip_prefix_iff. Qed.

Lemma take_drop cls s : s = take_while cls s ++ drop_while cls s.
Proof. induction s as [|a s IH]; simpl; [reflexivity|]. destruct (cls a); simpl; congruence. Qed.

Lemma take_while_all cls s : all_chars cls (take_while cls s) = true.
Proof. induction s as [|a s IH]; simpl; [reflexivity|]. destruct (cls a) eqn:E; simpl; [rewrite E|]; auto. Qed.

Lemma drop_while_stop cls s : starts_with cls (drop_while cls s) = false.
Proof. induction s as [|a s IH]; simpl; [reflexivity|]. destruct (cls a) eqn:E; simpl; auto. Qed.

Lemma span_unique cls u : forall v,
  all_chars cls u = true -> starts_with cls v = false ->
  take_while cls (u ++ v) = u /\ drop_while cls (u ++ v) = v.
Proof.
  induction u as [|a u IH]; intros v Hu Hv; simpl in *.
  - destruct v as [|b v]; simpl in *; [auto|]. rewrite Hv. auto.
  - apply andb_true_iff in Hu as [Ha Hu]. rewrite Ha.
    destruct (IH v Hu Hv) as [-> ->]. auto.
Qed.

(** ** The pattern of a field, written out *)

Lemma rmatch_lit l p s g :
  rmatch (Lit l :: p) s g =
  match strip_prefix l s with Some s' => rmatch p s' g | None => None end.
Proof. reflexivity. Qed.

Lemma rmatch_one cls p s g :
  rmatch (One cls :: p) s g =
  match s with
  | String a s' => if cls a then rmatch p s' g else None
  | EmptyString => None
  end.
Proof. reflexivity. Qed.

Lemma strip_prefix_char a b s :
  strip_prefix (String a EmptyString) (String b s) =
  if Ascii.eqb a b then Some s else None.
Proof. reflexivity. Qed.

Lemma colon_blocked a s' g p :
  isspace a = true -> rmatch (Lit ":" :: p) (String a s') g = None.
Proof.
  intros H. rewrite rmatch_lit, strip_prefix_char.
  destruct (Ascii.eqb_spec ":" a) as [<-|]; [discriminate H | reflexivity].
Qed.

Lemma newline_blocked a s' g :
  dot a = true -> rmatch [Lit nl] (String a s') g = None.
Proof.
  intros H. unfold nl. rewrite rmatch_lit, strip_prefix_char.
  unfold dot in H. rewrite Ascii.eqb_sym.
  destruct (Ascii.eqb a newline); [discriminate H | reflexivity].
Qed.

Lemma rmatch_pattern pref s :
  group_at (pattern pref) s =
  match strip_prefix pref s with
  | None => None
  | Some s1 =>
      match drop_while isspace s1 with
      | String c (String w s3) =>
          if Ascii.eqb c ":" && isspace w then
            match take_while dot s3, drop_while dot s3 with
            | String a g, String b _ =>
                if Ascii.eqb b newline then Some (String a g) else None
            | _, _ => None
            end
          else None
      | _ => None
      end
  end.
Proof.
  unfold group_at, pattern. rewrite rmatch_lit.
  destruct (strip_prefix pref s) as [s1|]; [|reflexivity].
  rewrite rmatch_star by (intros; now apply colon_blocked).
  destruct (drop_while isspace s1) as [|c s2]; [reflexivity|].
  rewrite rmatch_lit, strip_prefix_char, (Ascii.eqb_sym c ":").
  destruct (Ascii.eqb ":" c); cbn [andb].
  2:{ destruct s2; reflexivity. }
  destruct s2 as [|w s3]; [reflexivity|].
  rewrite rmatch_one.
  destruct (isspace w); [|reflexivity].
  rewrite rmatch_plus by (intros; now apply newline_blocked).
  destruct (take_while dot s3) as [|a g]; [reflexivity|].
  destruct (drop_while dot s3) as [|b r]; [reflexivity|].
  rewrite rmatch_lit, strip_prefix_char, (Ascii.eqb_sym b newline).
  destruct (Ascii.eqb newline b); reflexivity.
Qed.

Lemma all_chars_app p a b :
  all_chars p (a ++ b) = all_chars p a && all_chars p b.
Proof. induction a as [|c a IH]; simpl; [reflexivity|]. rewrite IH. apply andb_assoc. Qed.

Lemma rmatch_line pref s g :
  group_at (pattern pref) s = Some g <-> line_at pref s g.
Proof.
  rewrite rmatch_pattern. split.
  - destruct (strip_prefix pref s) as [s1|] eqn:P; [|discriminate].
    apply strip_prefix_iff in P.
    destruct (drop_while isspace s1) as [|c [|w s3]] eqn:D; try discriminate.
    destruct (Ascii.eqb_spec c ":") as [->|]; [|discriminate].
    destruct (isspace w) eqn:W; [|discriminate]. cbn [andb].
    destruct (take_while dot s3) as [|a g'] eqn:T; [discriminate|].
    destruct (drop_while dot s3) as [|b r] eqn:R; [discriminate|].
    destruct (Ascii.eqb_spec b newline) as [->|]; [|discriminate].
    intros [= <-].
    exists (take_while isspace s1), w, r. repeat split; auto.
    + rewrite P at 1. f_equal.
      rewrite (take_drop isspace s1) at 1. rewrite D. f_equal. simpl. do 2 f_equal.
      rewrite (take_drop dot s3) at 1. rewrite T, R. reflexivity.
    + apply take_while_all.
    + rewrite <- T. apply take_while_all.
    + discriminate.
  - intros (ws & w & rest & -> & Hws & Hw & Hg & Hne).
    rewrite strip_prefix_app.
    destruct (span_unique isspace ws (":" ++ String w (g ++ String newline rest)) Hws eq_refl)
      as [_ ->].
    cbn [append]. rewrite Ascii.eqb_refl, Hw. cbn [andb].
    destruct (span_unique dot g (String newline rest) Hg eq_refl) as [-> ->].
    destruct g; [congruence|]. rewrite Ascii.eqb_refl. reflexivity.
Qed.

(** ** Text after the last newline *)

Lemma no_newline_before u : forall rest,
  all_chars dot (u ++ String newline rest) = false.
Proof.
  induction u as [|a u IH]; intros rest; simpl.
  - reflexivity.
  - rewrite IH. apply andb_false_r.
Qed.

Lemma split_at_newline u : forall s last rest,
  s ++ last = u ++ String newline rest -> all_chars dot last = true ->
  exists rest', s = u ++ String newline rest' /\ rest = rest' ++ last.
Proof.
  induction u as [|a u IH]; intros s last rest E Hl.
  - destruct s as [|b s]; simpl in E.
    + subst last. discriminate Hl.
    + injection E as -> <-. now exists s.
  - destruct s as [|b s]; simpl in E.
    + subst last. simpl in Hl. rewrite no_newline_before, andb_false_r in Hl. discriminate.
    + injection E as -> E. destruct (IH _ _ _ E Hl) as (r & -> & ->). now exists r.
Qed.

Lemma line_at_app_tail pref s last g :
  all_chars dot last = true ->
  line_at pref (s ++ last) g <-> line_at pref s g.
Proof.
  intros Hl. split.
  - intros (ws & w & rest & E & Hws & Hw & Hg & Hne).
    assert (E' : s ++ last = (pref ++ ws ++ ":" ++ String w g) ++ String newline rest).
    { rewrite E. rewrite ?append_assoc; simpl; rewrite ?append_assoc; reflexivity. }
    destruct (split_at_newline _ _ _ _ E' Hl) as (r & -> & _).
    exists ws, w, r. repeat split; auto.
    rewrite ?append_assoc; simpl; rewrite ?append_assoc; reflexivity.
  - intros (ws & w & rest & -> & Hws & Hw & Hg & Hne).
    exists ws, w, (rest ++ last). repeat split; auto.
    rewrite ?append_assoc; simpl; rewrite ?append_assoc; reflexivity.
Qed.

Lemma rmatch_app_tail pref s last :
  all_chars dot last = true ->
  group_at (pattern pref) (s ++ last) = group_at (pattern pref) s.
Proof.
  intros Hl.
  destruct (group_at (pattern pref) (s ++ last)) as [g|] eqn:E1.
  - apply rmatch_line in E1. apply (line_at_app_tail pref s last g Hl) in E1.
    apply rmatch_line in E1. now rewrite E1.
  - destruct (group_at (pattern pref) s) as [g|] eqn:E2; [|reflexivity].
    apply rmatch_line in E2. apply (line_at_app_tail pref s last g Hl) in E2.
    apply rmatch_line in E2. congruence.
Qed.

Lemma line_at_newline pref s g : line_at pref s g -> all_chars dot s = false.
Proof.
  intros (ws & w & rest & -> & _).
  rewrite !all_chars_app. simpl. rewrite all_chars_app. simpl.
  rewrite !andb_false_r. reflexivity.
Qed.

Lemma re_search_no_newline pref t :
  all_chars dot t = true -> re_search (pattern pref) t = None.
Proof.
  induction t as [|a t IH]; intros H; rewrite re_search_eq.
  - destruct (group_at (pattern pref) "") eqn:E; [|reflexivity].
    apply rmatch_line, line_at_newline in E. discriminate.
  - destruct (group_at (pattern pref) (String a t)) eqn:E.
    + apply rmatch_line, line_at_newline in E. congruence.
    + cbn [all_chars] in H. apply andb_true_iff in H as [_ H]. auto.
Qed.

Lemma re_search_app_tail pref last : all_chars dot last = true ->
  forall s, re_search (pattern pref) (s ++ last) = re_search (pattern pref) s.
Proof.
  intros Hl. induction s as [|a s IH].
  - simpl append. rewrite (re_search_no_newline _ _ Hl).
    symmetry. now apply re_search_no_newline.
  - change (String a s ++ last) with (String a (s ++ last)).
    rewrite (re_search_eq _ (String a (s ++ last))), (re_search_eq _ (String a s)).
    change (String a (s ++ last)) with (String a s ++ last).
    rewrite (rmatch_app_tail _ _ _ Hl), IH. reflexivity.
Qed.

(** ** Where a match comes from *)

Lemma re_search_found p : forall raw g,
  re_search p raw = Some g ->
  exists pre s, raw = pre ++ s /\ group_at p s = Some g.
Proof.
  induction raw as [|a raw IH]; intros g; rewrite re_search_eq.
  - destruct (group_at p "") eqn:E; [|discriminate].
    intros [= <-]. now exists "", "".
  - destruct (group_at p (String a raw)) eqn:E.
    + intros [= <-]. now exists "", (String a raw).
    + intros H. destruct (IH _ H) as (pre & s & -> & M).
      now exists (String a pre), s.
Qed.

Lemma re_search_chars cls pref raw g :
  re_search (pattern pref) raw = Some g ->
  all_chars cls raw = true -> all_chars cls g = true.
Proof.
  intros H A. destruct (re_search_found _ _ _ H) as (pre & s & -> & M).
  apply rmatch_line in M. destruct M as (ws & w & rest & -> & _).
  rewrite !all_chars_app in A. cbn [all_chars] in A. rewrite all_chars_app in A.
  repeat (apply andb_true_iff in A as [? A] || apply andb_true_iff in A as [A ?]).
  assumption.
Qed.

Lemma remove_char_chars cls c s :
  all_chars cls s = true -> all_chars cls (remove_char c s) = true.
Proof.
  induction s as [|a s IH]; cbn [remove_char all_chars]; [auto|].
  intros H. apply andb_true_iff in H as [Ha Hs].
  destruct (Ascii.eqb a c); cbn [all_chars]; [auto|]. rewrite Ha. auto.
Qed.

Lemma lstrip_chars cls s :
  all_chars cls s = true -> all_chars cls (lstrip s) = true.
Proof.
  induction s as [|a s IH]; cbn [lstrip]; [auto|].
  intros H. destruct (isspace a); [|exact H].
  cbn [all_chars] in H. apply andb_true_iff in H as [_ H]. auto.
Qed.

Lemma rstrip_chars cls s :
  all_chars cls s = true -> all_chars cls (rstrip s) = true.
Proof.
  induction s as [|a s IH]; cbn [rstrip]; [auto|].
  intros H. cbn [all_chars] in H. apply andb_true_iff in H as [Ha Hs].
  specialize (IH Hs). destruct (rstrip s).
  - destruct (isspace a); cbn [all_chars]; [auto|]. now rewrite Ha.
  - cbn [all_chars] in *. now rewrite Ha, IH.
Qed.

Lemma clean_value_chars cls g :
  all_chars cls g = true -> all_chars cls (clean_value g) = true.
Proof.
  intros H. unfold clean_value, strip.
  now repeat (apply rstrip_chars || apply lstrip_chars || apply remove_char_chars).
Qed.

Lemma captured_chars cls raw pref v :
  captured raw pref = Some v -> all_chars cls raw = true -> all_chars cls v = true.
Proof.
  unfold captured. destruct (re_search (pattern pref) raw) as [g|] eqn:E; [|discriminate].
  intros [= <-] A. apply clean_value_chars. eapply re_search_chars; eauto.
Qed.

(** ** The [isdigit] branch *)

Lemma int_digits_decimal v : all_chars isdecimal v = true ->
  forall acc, exists n, int_digits acc v = Ret n.
Proof.
  induction v as [|c v IH]; intros H acc; cbn [int_digits].
  - now exists acc.
  - cbn [all_chars] in H. apply andb_true_iff in H as [Hc Hv]. rewrite Hc. auto.
Qed.

Lemma decimal_isdigit v :
  all_chars isdecimal v = true -> all_chars isdigit_char v = true.
Proof.
  induction v as [|c v IH]; cbn [all_chars]; [auto|].
  intros H. apply andb_true_iff in H as [Hc Hv].
  unfold isdigit_char. rewrite Hc. cbn [orb]. auto.
Qed.

Lemma convert_decimal v :
  all_chars isdecimal v = true -> v <> "" ->
  exists n, int v = Ret n /\ convert v = Ret (hex n).
Proof.
  intros H Hne. destruct v as [|c v]; [congruence|].
  destruct (int_digits_decimal _ H 0%N) as [n Hn].
  exists n. unfold convert, int, isdigit.
  rewrite (decimal_isdigit _ H), Hn. auto.
Qed.

Lemma convert_nondigit v :
  all_chars isdigit_char v = false -> convert v = Ret v.
Proof.
  intros H. unfold convert, isdigit. destruct v; [reflexivity|]. now rewrite H.
Qed.

Lemma digit_plain_decimal v :
  all_chars isdigit_char v = true -> all_chars plain v = true ->
  all_chars isdecimal v = true.
Proof.
  induction v as [|c v IH]; cbn [all_chars]; [auto|].
  intros H P. apply andb_true_iff in H as [Hc Hv]. apply andb_true_iff in P as [Pc Pv].
  rewrite (IH Hv Pv), andb_true_r.
  unfold plain, superscript in Pc. rewrite Hc in Pc.
  destruct (isdecimal c); [reflexivity | discriminate Pc].
Qed.

Lemma convert_plain v :
  all_chars plain v = true -> exists x, convert v = Ret x.
Proof.
  intros P. destruct (all_chars isdigit_char v) eqn:D.
  - destruct v as [|c v]; [now exists ""|].
    destruct (convert_decimal (String c v)) as (n & _ & ->); [|discriminate|eauto].
    now apply digit_plain_decimal.
  - exists v. now apply convert_nondigit.
Qed.

(** ** The loop *)

Lemma resolve_step_captured raw parsed pref :
  resolve_step raw parsed pref =
  match captured raw pref with
  | Some v => obind (convert v) (fun x => Ret (parsed ++ [mkPref pref x])%list)
  | None => Ret parsed
  end.
Proof. unfold resolve_step, captured. now destruct (re_search (pattern pref) raw). Qed.

Lemma resolve_loop_keeps raw prefs : forall parsed l,
  resolve_loop raw prefs parsed = Ret l -> forall r, In r parsed -> In r l.
Proof.
  induction prefs as [|p prefs IH]; intros parsed l; cbn [resolve_loop].
  - now intros [= <-].
  - rewrite resolve_step_captured.
    destruct (captured raw p) as [v|]; cbn [obind]; [|now apply IH].
    destruct (convert v) as [x|e]; cbn [obind]; [|discriminate].
    intros H r Hr. apply (IH _ _ H). apply in_or_app. now left.
Qed.

Lemma resolve_loop_emits raw prefs : forall parsed l,
  resolve_loop raw prefs parsed = Ret l ->
  forall field v, In field prefs -> captured raw field = Some v ->
  exists x, convert v = Ret x /\ In (mkPref field x) l.
Proof.
  induction prefs as [|p prefs IH]; intros parsed l; cbn [resolve_loop].
  - intros _ field v [].
  - rewrite resolve_step_captured. intros H field v [->|Hin] C.
    + rewrite C in H. cbn [obind] in H.
      destruct (convert v) as [x|e]; cbn [obind] in H; [|discriminate].
      exists x. split; [reflexivity|].
      apply (resolve_loop_keeps _ _ _ _ H). apply in_or_app. right. now left.
    + destruct (captured raw p) as [w|]; cbn [obind] in H; [|now eapply IH; eauto].
      destruct (convert w) as [x|e]; cbn [obind] in H; [|discriminate].
      eapply IH; eauto.
Qed.

Lemma resolve_loop_returns raw prefs :
  (forall field v, In field prefs -> captured raw field = Some v ->
     exists x, convert v = Ret x) ->
  forall parsed, exists l, resolve_loop raw prefs parsed = Ret l.
Proof.
  induction prefs as [|p prefs IH]; intros H parsed; cbn [resolve_loop].
  - now exists parsed.
  - rewrite resolve_step_captured.
    destruct (captured raw p) as [v|] eqn:C; cbn [obind].
    + destruct (H p v (or_introl eq_refl) C) as [x ->]. cbn [obind].
      apply IH. intros; eapply H; eauto. now right.
    + apply IH. intros; eapply H; eauto. now right.
Qed.

Lemma resolve_loop_origin raw prefs : forall parsed l,
  resolve_loop raw prefs parsed = Ret l ->
  forall r, In r l ->
  In r parsed \/ (In (pref_name r) prefs /\ re_search (pattern (pref_name r)) raw <> None).
Proof.
  induction prefs as [|p prefs IH]; intros parsed l; cbn [resolve_loop].
  - intros [= <-] r Hr. now left.
  - unfold resolve_step.
    destruct (re_search (pattern p) raw) as [g|] eqn:E; cbn [obind].
    + destruct (convert (clean_value g)) as [x|e]; cbn [obind]; [|discriminate].
      intros H r Hr. destruct (IH _ _ H r Hr) as [Hp|[Hi Hs]].
      * apply in_app_or in Hp as [Hp|[<-|[]]]; [now left|].
        right. cbn [pref_name]. split; [now left | congruence].
      * right. split; [now right | assumption].
    + intros H r Hr. destruct (IH _ _ H r Hr) as [Hp|[Hi Hs]]; [now left|].
      right. split; [now right | assumption].
Qed.

Lemma resolve_loop_ext raw1 raw2 prefs :
  (forall pref, In pref prefs ->
     re_search (pattern pref) raw1 = re_search (pattern pref) raw2) ->
  forall parsed, resolve_loop raw1 prefs parsed = resolve_loop raw2 prefs parsed.
Proof.
  induction prefs as [|p prefs IH]; intros H parsed; cbn [resolve_loop]; [reflexivity|].
  unfold resolve_step. rewrite (H p (or_introl eq_refl)).
  destruct (re_search (pattern p) raw2); cbn [obind].
  - destruct (convert (clean_value s)); cbn [obind]; [|reflexivity].
    apply IH. intros; apply H. now right.
  - apply IH. intros; apply H. now right.
Qed.

(** ** [resolve_preferences] *)

Lemma resolve_preferences_loop raw event prefs :
  get_prefs_list event = Some (Ret prefs) ->
  resolve_preferences raw event = resolve_loop raw prefs [].
Proof. unfold resolve_preferences. now intros ->. Qed.

Lemma resolve_preferences_unlisted raw event :
  get_prefs_list event = None ->
  resolve_preferences raw event =
  Raise (mkExn TypeError "'NoneType' object is not callable").
Proof. unfold resolve_preferences. now intros ->. Qed.

Lemma resolve_preferences_plain raw event prefs :
  get_prefs_list event = Some (Ret prefs) ->
  all_chars plain raw = true ->
  exists l, resolve_preferences raw event = Ret l.
Proof.
  intros Hev P. rewrite (resolve_preferences_loop _ _ _ Hev).
  apply resolve_loop_returns. intros field v _ C.
  apply convert_plain. eapply captured_chars; eauto.
Qed.

Lemma prefs_plain event prefs :
  get_prefs_list event = Some (Ret prefs) ->
  forall field, In field prefs -> all_chars plain field = true.
Proof.
  unfold get_prefs_list. intros H.
  assert (F : forallb (all_chars plain) prefs = true).
  { destruct (String.eqb event "Get-MpPreference");
      [|destruct (String.eqb event "Get-MpComputerStatus"); [|discriminate]];
      injection H as <-; vm_compute; reflexivity. }
  intros field Hin. now apply (proj1 (forallb_forall _ _) F).
Qed.

Lemma re_search_some p s g : group_at p s = Some g ->
  forall pre, exists g', re_search p (pre ++ s) = Some g'.
Proof.
  intros M. induction pre as [|a pre [g' IH]].
  - exists g. cbn [append]. rewrite re_search_eq. now rewrite M.
  - change (String a pre ++ s) with (String a (pre ++ s)). rewrite re_search_eq.
    destruct (group_at p (String a (pre ++ s))); eauto.
Qed.

(** The second end-to-end scenario. *)
Example scenario_scan_parameters :
  resolve_preferences scan_parameters_line "Get-MpPreference" =
  Ret [mkPref "ScanParameters" "0x1"].
Proof. vm_compute. reflexivity. Qed.

Example to_camel_examples :
  to_camel "scan_avg_c_p_u_load_factor" = "ScanAvgCPULoadFactor" /\
  to_camel "threat_i_d_default_action__ids" = "ThreatIDDefaultAction_Ids".
Proof. split; reflexivity. Qed.



(** C3.  [resolve_preferences] is not total: for an event without a field
    list, [get_prefs_list.get(event)] is [None] and calling it raises
    [TypeError]. *)
Theorem resolve_preferences_raises :
  resolve_preferences "ok" "Set-MpPreference" =
  Raise (mkExn TypeError "'NoneType' object is not callable").
Proof. reflexivity. Qed.

(** A value that passes [isdigit] and that [int] does not read: the
    superscript two. *)
Lemma resolve_preferences_superscript :
  resolve_preferences ("AntivirusEnabled : " ++ String (ascii_of_N 178) nl)
    "Get-MpComputerStatus" =
  Raise (mkExn ValueError "invalid literal for int() with base 10").
Proof. vm_compute. reflexivity. Qed.

(** C9.  A final line [<field>: <value>] without its newline gives no
    record: the result is that of the text before it, it has no record for
    the field when no earlier line has one, and the line alone gives the
    empty list; with the newline added, the field has a record. *)
Theorem final_line_omitted event prefs field value pre
    (Hev : get_prefs_list event = Some (Ret prefs))
    (Hin : In field prefs)
    (Hval : all_chars dot value = true) :
  resolve_preferences (pre ++ field ++ ": " ++ value) event =
    resolve_preferences pre event
  /\ (re_search (pattern field) pre = None ->
      forall l, resolve_preferences (pre ++ field ++ ": " ++ value) event = Ret l ->
                ~ In field (map pref_name l))
  /\ resolve_preferences (field ++ ": " ++ value) event = Ret []
  /\ (value <> "" -> all_chars plain (pre ++ value) = true ->
      exists l x,
        resolve_preferences (pre ++ field ++ ": " ++ value ++ nl) event = Ret l /\
        In (mkPref field x) l).
Proof.
  rewrite !(resolve_preferences_loop _ _ _ Hev).
  assert (Hlast : forall f, all_chars dot (f ++ ": " ++ value) = true ->
            forall s p, re_search (pattern p) (s ++ f ++ ": " ++ value) =
                        re_search (pattern p) s).
  { intros f Hf s p. now apply re_search_app_tail. }
  assert (Hfield : all_chars dot field = true).
  { revert Hin. clear - Hev. unfold get_prefs_list in Hev. intros Hin.
    assert (F : forallb (all_chars dot) prefs = true).
    { destruct (String.eqb event "Get-MpPreference");
        [|destruct (String.eqb event "Get-MpComputerStatus"); [|discriminate]];
        injection Hev as <-; vm_compute; reflexivity. }
    now apply (proj1 (forallb_forall _ _) F). }
  assert (Hline : all_chars dot (field ++ ": " ++ value) = true).
  { rewrite !all_chars_app, Hfield, Hval. reflexivity. }
  assert (Heq : forall s, resolve_loop (s ++ field ++ ": " ++ value) prefs [] =
                          resolve_loop s prefs []).
  { intros s. apply resolve_loop_ext. intros p _. now apply Hlast. }
  split; [apply Heq|]. split; [|split].
  - intros Hnone l Hl Hf. apply in_map_iff in Hf as (r & Hname & Hr).
    destruct (resolve_loop_origin _ _ _ _ Hl r Hr) as [[]|[_ Hs]].
    rewrite Hname, (Hlast _ Hline) in Hs. contradiction.
  - change (field ++ ": " ++ value) with ("" ++ field ++ ": " ++ value).
    rewrite Heq. clear. induction prefs as [|p prefs IH]; [reflexivity|].
    cbn [resolve_loop]. unfold resolve_step.
    rewrite (re_search_no_newline p "" eq_refl). exact IH.
  - intros Hne Hplain.
    assert (Hmatch : group_at (pattern field) (field ++ ": " ++ value ++ nl) = Some value).
    { apply rmatch_line. exists "", " "%char, "". repeat split; auto. }
    destruct (re_search_some _ _ _ Hmatch pre) as [g Hg].
    assert (Hall : all_chars plain (pre ++ field ++ ": " ++ value ++ nl) = true).
    { rewrite all_chars_app in Hplain. apply andb_true_iff in Hplain as [Hp Hv].
      rewrite !all_chars_app, Hp, Hv, (prefs_plain _ _ Hev field Hin). reflexivity. }
    destruct (resolve_loop_returns (pre ++ field ++ ": " ++ value ++ nl) prefs) with (parsed := @nil pref_record)
      as [l Hl].
    { intros f v _ C. apply convert_plain. eapply captured_chars; eauto. }
    destruct (resolve_loop_emits _ _ _ _ Hl field (clean_value g) Hin) as (x & _ & Hx).
    { unfold captured. now rewrite Hg. }
    now exists l, x.
Qed.

Lemma final_line_omitted_witness :
  resolve_preferences ("AntivirusEnabled: True") "Get-MpComputerStatus" = Ret []
  /\ resolve_preferences ("AntivirusEnabled: True" ++ nl) "Get-MpComputerStatus" =
     Ret [mkPref "AntivirusEnabled" "True"].
Proof.
  split.
  - refine (proj1 (proj2 (proj2 (final_line_omitted "Get-MpComputerStatus" _
              "AntivirusEnabled" "True" "" eq_refl _ eq_refl)))).
    vm_compute. tauto.
  - vm_compute. reflexivity.
Defined.

End ResolverFacts.

Module DispatcherFacts.
Import Re Resolver Dispatcher.
Open Scope prog_scope.

(** ** Interleavings *)

Section Shuffle.
Context {A : Type}.
Variable p : A -> bool.



End Shuffle.

(** ** The store *)

Lemma nth_error_set_nth_same {A} (x : A) : forall l n,
  n < List.length l -> nth_error (set_nth n x l) n = Some x.
Proof.
  induction l as [|a l IH]; intros [|n] H; simpl in *; try lia; auto.
  apply IH. lia.
Qed.


Section Facts.
Variable env : environment.
Variable config : PowerShellConfig.

Lemma routes_four :
  check_routes config = Ret tt ->
  exists r0 r1 r2 r3, route_publish config = Some [r0; r1; r2; r3].
Proof.
  unfold check_routes. destruct (route_publish config) as [routes|]; [|discriminate].
  destruct routes as [|r0 [|r1 [|r2 [|r3 [|r4 rest]]]]]; try discriminate.
  intros _. now exists r0, r1, r2, r3.
Qed.

(** ** The client *)

Lemma run_shape self script s :
  match nth_error (clients s) self with
  | None =>
      run env self script s =
      ([], s, Raise (mkExn AttributeError "no such client"))
  | Some c =>
      let cmd' := (cmd c ++ [script])%list in
      let s' := mkState (set_nth self (mkClient cmd' (key c) (client_username c))
                                 (clients s)) (loop_tasks s) in
      run env self script s =
      match run_process env cmd' with
      | SpawnError e => ([Exec cmd'], s', Raise e)
      | CommunicateError e =>
          ([Exec cmd'; Logged ("Subprocess communicate error. " ++ exn_str e)],
           s', Raise e)
      | Output out err => ([Exec cmd'], s', Ret (clean_output out, clean_output err))
      end
  end.
Proof.
  unfold run, deref, bind, get, put, emit, ret, raise.
  destruct (nth_error (clients s) self) as [c|]; cbn; [|reflexivity].
  destruct (run_process env (cmd c ++ [script])); reflexivity.
Qed.

Lemma invoking_shape client body hostname s :
  match model_dict env (event body) (preferences body) with
  | Raise e => invoking env client body hostname s = ([], s, Raise e)
  | Ret prefs =>
      match nth_error (clients s) client with
      | None =>
          invoking env client body hostname s =
          ([], s, Raise (mkExn AttributeError "no such client"))
      | Some c =>
          invoking env client body hostname s =
          run env client
              (create_script c hostname (event body) prefs) s
      end
  end.
Proof.
  unfold invoking, invoke_command, lift, bind.
  destruct (model_dict env (event body) (preferences body)) as [prefs|e]; [|reflexivity].
  unfold deref at 1. unfold bind, get, ret, raise. cbn.
  destruct (nth_error (clients s) client) as [c|] eqn:E; cbn; [|reflexivity].
  destruct (run env client _ s) as [[t s1] r]. destruct r; reflexivity.
Qed.

(** What [invoking] can leave behind: at most one [Exec], of the client's
    list and one script, and nothing published. *)
Lemma invoking_trace client body hostname s :
  let r := invoking env client body hostname s in
  filter is_published (trace_of r) = [] /\
  loop_tasks (state_of r) = loop_tasks s /\
  (forall argv, In (Exec argv) (trace_of r) ->
     exists c prefs,
       nth_error (clients s) client = Some c /\
       model_dict env (event body) (preferences body) = Ret prefs /\
       argv = (cmd c ++ [create_script c hostname (event body) prefs])%list).
Proof.
  intros r. subst r. pose proof (invoking_shape client body hostname s) as H.
  destruct (model_dict env (event body) (preferences body)) as [prefs|e].
  2:{ rewrite H. cbn. repeat split; auto. intros ? []. }
  destruct (nth_error (clients s) client) as [c|] eqn:E.
  2:{ rewrite H. cbn. repeat split; auto. intros ? []. }
  rewrite H. clear H.
  pose proof (run_shape client (create_script c hostname (event body) prefs) s) as H.
  rewrite E in H. cbv zeta in H. rewrite H.
  destruct (run_process env _); cbn; repeat split; auto;
    intros argv Hin; exists c, prefs; repeat split; auto;
    repeat (destruct Hin as [Hin|Hin]; [now inversion Hin|]); destruct Hin.
Qed.

(** ** One per-host task, by the outcome of its [try] block *)

Lemma task_cases {r0 r1 r2 r3 client body hostname s t s1 r} :
  route_publish config = Some [r0; r1; r2; r3] ->
  invoking env client body hostname s = (t, s1, r) ->
  process_invoking_command env config client body hostname s =
  match r with
  | Raise e =>
      ((t ++ [Logged ("Error: invoke PowerShell command. Body: " ++ exn_str e);
              error_notice r0 hostname (exn_str e)])%list, s1, Raise e)
  | Ret (out, err) =>
      let errs :=
        if Nat.ltb 1 (String.length err)
        then [error_notice r0 hostname err] else [] in
      if nonempty out then
        match resolve_preferences out (event body) with
        | Raise e' => (t, s1, Raise e')
        | Ret prefs =>
            ((t ++
              (if String.eqb (event body) "Get-MpPreference"
               then [Published (destination_of r2) (Preferences hostname prefs)]
               else if String.eqb (event body) "Get-MpComputerStatus"
               then [Published (destination_of r3) (Preferences hostname prefs)]
               else []) ++ errs)%list, s1, Ret tt)
        end
      else ((t ++ errs)%list, s1, Ret tt)
  end.
Proof.
  intros Hr Hi.
  unfold process_invoking_command, try_except, bind. rewrite Hi.
  unfold route_at, doing_publish, emit, raise, ret, lift, error_notice.
  rewrite Hr. cbn [nth_error].
  destruct r as [[out err]|e]; cbn [fst snd]; [|reflexivity].
  assert (Herr : nonempty err && Nat.ltb 1 (String.length err) =
                 Nat.ltb 1 (String.length err)) by (destruct err; reflexivity).
  rewrite Herr.
  destruct (nonempty out).
  - destruct (resolve_preferences out (event body)) as [prefs|e']; [|now rewrite app_nil_r].
    destruct (String.eqb (event body) "Get-MpPreference");
      [|destruct (String.eqb (event body) "Get-MpComputerStatus")];
      destruct (Nat.ltb 1 (String.length err)); cbn;
      rewrite ?app_nil_r; reflexivity.
  - destruct (Nat.ltb 1 (String.length err)); cbn; rewrite ?app_nil_r; reflexivity.
Qed.


(** ** Counting published messages *)

Lemma count_app p a b : count p (a ++ b) = count p a + count p b.
Proof. unfold count. now rewrite filter_app, length_app. Qed.

Lemma count_unpublished p t :
  (forall a, p a = true -> is_published a = true) ->
  filter is_published t = [] -> count p t = 0.
Proof.
  intros Hp. unfold count. induction t as [|a t IH]; cbn; [reflexivity|].
  destruct (is_published a) eqn:E; [discriminate|]. intros H.
  destruct (p a) eqn:Pa; [|auto]. rewrite (Hp a Pa) in E. discriminate.
Qed.

Lemma error_published a : is_error_notice a = true -> is_published a = true.
Proof. now destruct a. Qed.
Lemma preferences_published a : is_preferences a = true -> is_published a = true.
Proof. now destruct a. Qed.




(** ** [call_handler] *)

Lemma spawn_all body hosts : forall s,
  for_each hosts (fun hostname =>
    client <- PwshClient_init config ;;
    create_task (mkTask client body hostname)) s =
  ([], mkState (clients s ++ repeat (new_client config) (List.length hosts))
               (loop_tasks s ++ spawned (List.length (clients s)) body hosts),
   Ret tt).
Proof.
  induction hosts as [|h hosts IH]; intros [cl tk]; cbn [for_each].
  - cbn. now rewrite !app_nil_r.
  - unfold bind at 1. unfold PwshClient_init, create_task, bind, get, put, ret.
    cbn. rewrite IH. cbn. rewrite length_app. cbn.
    rewrite <- !app_assoc. cbn. rewrite Nat.add_1_r. reflexivity.
Qed.

Lemma get_body_valid {raw_body body} s :
  obind (json_loads env raw_body) (BodyModel_init env) = Ret body ->
  get_body env raw_body s = ([], s, Ret (Some body)).
Proof. unfold get_body. now intros ->. Qed.

Lemma get_body_invalid {raw_body e} s :
  obind (json_loads env raw_body) (BodyModel_init env) = Raise e ->
  get_body env raw_body s =
  ([Logged ("Error: could not load json body. " ++ exn_str e)], s, Ret None).
Proof. unfold get_body. now intros ->. Qed.

Lemma call_handler_valid {r0 r1 r2 r3 raw_body body} s :
  route_publish config = Some [r0; r1; r2; r3] ->
  obind (json_loads env raw_body) (BodyModel_init env) = Ret body ->
  call_handler env config raw_body s =
  ([Published (destination_of r1) (TaskAccepted (task_id body))],
   mkState (clients s ++ repeat (new_client config) (List.length (hostnames body)))
           (loop_tasks s ++ spawned (List.length (clients s)) body (hostnames body)),
   Ret tt).
Proof.
  intros Hr Hb. unfold call_handler. unfold bind at 1.
  rewrite (get_body_valid s Hb).
  unfold bind at 1. unfold route_at. rewrite Hr. cbn [nth_error].
  unfold ret at 1. unfold bind at 1. unfold doing_publish, emit.
  rewrite spawn_all. reflexivity.
Qed.

Lemma call_handler_invalid {raw_body e} s :
  obind (json_loads env raw_body) (BodyModel_init env) = Raise e ->
  call_handler env config raw_body s =
  ([Logged ("Error: could not load json body. " ++ exn_str e)], s,
   Raise (mkExn AttributeError "'NoneType' object has no attribute 'task_id'")).
Proof.
  intros Hb. unfold call_handler, bind. now rewrite (get_body_invalid s Hb).
Qed.

Lemma created_app s cl tk :
  created s (mkState cl (loop_tasks s ++ tk)) = tk.
Proof.
  unfold created. cbn. rewrite skipn_app, skipn_all, Nat.sub_diag. reflexivity.
Qed.



Lemma spawned_in body hosts : forall n t,
  In t (spawned n body hosts) ->
  n <= t_client t < n + List.length hosts /\ t_body t = body /\ In (t_hostname t) hosts.
Proof.
  induction hosts as [|h hosts IH]; intros n t; cbn; [intros []|].
  intros [<-|H]; cbn; [repeat split; auto; lia|].
  destruct (IH _ _ H) as (? & ? & ?). repeat split; auto; lia.
Qed.

Lemma spawned_nodup body hosts : forall n,
  NoDup (map t_client (spawned n body hosts)).
Proof.
  induction hosts as [|h hosts IH]; intros n; cbn; constructor; auto.
  intros H. apply in_map_iff in H as (t & E & Hin).
  apply spawned_in in Hin. lia.
Qed.

Lemma nth_error_fresh {A} (l : list A) x k i :
  List.length l <= i < List.length l + k ->
  nth_error (l ++ repeat x k) i = Some x.
Proof.
  intros H. rewrite nth_error_app2 by lia.
  apply nth_error_repeat. lia.
Qed.

(** ** Tasks and the store *)



(** ** The handler *)


(** An event outside [COMMANDS_IN_USE] fails the validation. *)
Lemma unsupported_event_rejected kw v ev :
  lookup "event" kw = Some v -> str_validator env v = Some ev ->
  ~ In ev COMMANDS_IN_USE ->
  BodyModel_init env (JObj kw) =
  Raise (mkExn ValidationError "validation error for BodyModel").
Proof.
  intros Hl Hv Hn. unfold BodyModel_init.
  assert (E : field_event env kw = None).
  { unfold field_event. rewrite Hl, Hv. unfold event_valid.
    destruct (existsb (String.eqb ev) COMMANDS_IN_USE) eqn:X; [|reflexivity].
    apply existsb_exists in X as (c & Hc & Heq).
    apply String.eqb_eq in Heq. subst c. contradiction. }
  rewrite E.
  destruct (field_hostnames env kw), (field_task_id env kw); reflexivity.
Qed.

(** C4.  When the body is not JSON, or the document fails the validation
    of [BodyModel], in particular when its event is not in
    [COMMANDS_IN_USE], [call_handler] logs the failure and does nothing
    else: nothing is published, the store is unchanged and no task is
    created.  (It ends with the [AttributeError] of reading [task_id] off
    [None].) *)
Theorem invalid_body_dropped raw_body s :
  (exists e, json_loads env raw_body = Raise e) \/
  (exists doc e, json_loads env raw_body = Ret doc /\
                 BodyModel_init env doc = Raise e) \/
  (exists kw v ev, json_loads env raw_body = Ret (JObj kw) /\
                   lookup "event" kw = Some v /\ str_validator env v = Some ev /\
                   ~ In ev COMMANDS_IN_USE) ->
  let r := call_handler env config raw_body s in
  (exists text, trace_of r = [Logged text]) /\
  filter is_published (trace_of r) = [] /\
  state_of r = s /\
  created s (state_of r) = [] /\
  exists e, outcome_of r = Raise e /\ exn_class e = AttributeError.
Proof.
  intros H.
  assert (Hb : exists e, obind (json_loads env raw_body) (BodyModel_init env) = Raise e).
  { destruct H as [[e He]|[(doc & e & Hd & He)|(kw & v & ev & Hd & Hl & Hv & Hn)]].
    - exists e. now rewrite He.
    - exists e. now rewrite Hd.
    - eexists. rewrite Hd. cbn [obind]. now apply (unsupported_event_rejected kw v ev). }
  destruct Hb as [e Hb]. cbv zeta. rewrite (call_handler_invalid s Hb).
  unfold trace_of, state_of, outcome_of, created. cbn [fst snd filter is_published].
  rewrite skipn_all. repeat split; eauto.
Qed.


(** With an output that the parser accepts, the standard error is routed
    exactly when it is longer than one character, next to the output. *)
Lemma stderr_routed client body hostname s t s1 out err :
  check_routes config = Ret tt ->
  invoking env client body hostname s = (t, s1, Ret (out, err)) ->
  (out = "" \/ exists prefs, resolve_preferences out (event body) = Ret prefs) ->
  let r := process_invoking_command env config client body hostname s in
  outcome_of r = Ret tt /\
  (1 < String.length err <-> count is_error_notice (trace_of r) = 1) /\
  (count is_preferences (trace_of r) = 1 <->
   out <> "" /\ (event body = "Get-MpPreference" \/ event body = "Get-MpComputerStatus")).
Proof.
  intros Hc Hi Hout. destruct (routes_four Hc) as (r0 & r1 & r2 & r3 & Hr).
  cbv zeta. rewrite (task_cases Hr Hi). cbv zeta.
  pose proof (invoking_trace client body hostname s) as (Hpub & _ & _).
  rewrite Hi in Hpub. cbn in Hpub.
  pose proof (count_unpublished is_preferences t preferences_published Hpub) as C2.
  pose proof (count_unpublished is_error_notice t error_published Hpub) as C3.
  destruct (Nat.ltb_spec 1 (String.length err)) as [L|L].
  - destruct Hout as [->|[prefs Hp]]; cbn [nonempty].
    + unfold trace_of, outcome_of. cbn [fst snd]. rewrite !count_app, C2, C3. cbn.
      repeat split; auto; try lia; try discriminate. intros [H _]. congruence.
    + destruct out as [|c out]; cbn [nonempty].
      * unfold trace_of, outcome_of. cbn [fst snd]. rewrite !count_app, C2, C3. cbn.
        repeat split; auto; try lia; try discriminate. intros [H _]. congruence.
      * rewrite Hp. unfold trace_of, outcome_of. cbn [fst snd].
        rewrite !count_app, C2, C3.
        destruct (String.eqb_spec (event body) "Get-MpPreference") as [E1|E1];
          [|destruct (String.eqb_spec (event body) "Get-MpComputerStatus") as [E2|E2]];
          cbn; repeat split; auto; try lia; try discriminate;
          intros [_ [H|H]]; congruence.
  - destruct Hout as [->|[prefs Hp]]; cbn [nonempty].
    + unfold trace_of, outcome_of. cbn [fst snd]. rewrite !count_app, C2, C3. cbn.
      repeat split; auto; try lia; try discriminate. intros [H _]. congruence.
    + destruct out as [|c out]; cbn [nonempty].
      * unfold trace_of, outcome_of. cbn [fst snd]. rewrite !count_app, C2, C3. cbn.
        repeat split; auto; try lia; try discriminate. intros [H _]. congruence.
      * rewrite Hp. unfold trace_of, outcome_of. cbn [fst snd].
        rewrite !count_app, C2, C3.
        destruct (String.eqb_spec (event body) "Get-MpPreference") as [E1|E1];
          [|destruct (String.eqb_spec (event body) "Get-MpComputerStatus") as [E2|E2]];
          cbn; repeat split; auto; try lia; try discriminate;
          intros [_ [H|H]]; congruence.
Qed.

(** C10.  [run] appends the script to the [cmd] of the instance and the
    instance keeps it: a second [run] on the same instance, and so a second
    [invoke_command], executes the list with both scripts.  [call_handler] gives every task an instance of
    its own, new in the store and with the two initial entries, so every
    list that a task executes holds exactly one script. *)
Theorem fresh_client_per_task :
  (forall self script s c,
     nth_error (clients s) self = Some c ->
     let r := run env self script s in
     filter is_exec (trace_of r) = [Exec (cmd c ++ [script])] /\
     option_map cmd (nth_error (clients (state_of r)) self) =
       Some (cmd c ++ [script])%list) /\
  (forall self script1 script2 s c,
     nth_error (clients s) self = Some c ->
     let s1 := state_of (run env self script1 s) in
     filter is_exec (trace_of (run env self script2 s1)) =
       [Exec (cmd c ++ [script1; script2])]) /\
  (forall self hostname1 command1 prefs1 hostname2 command2 prefs2 s c,
     nth_error (clients s) self = Some c ->
     let s1 := state_of (invoke_command env self hostname1 command1 prefs1 s) in
     filter is_exec
       (trace_of (invoke_command env self hostname2 command2 prefs2 s1)) =
       [Exec (cmd c ++ [create_script c hostname1 command1 prefs1;
                        create_script c hostname2 command2 prefs2])]) /\
  (forall raw_body body s,
     check_routes config = Ret tt ->
     obind (json_loads env raw_body) (BodyModel_init env) = Ret body ->
     let r := call_handler env config raw_body s in
     let tasks := created s (state_of r) in
     NoDup (map t_client tasks) /\
     forall t, In t tasks ->
       nth_error (clients s) (t_client t) = None /\
       nth_error (clients (state_of r)) (t_client t) = Some (new_client config) /\
       forall argv,
         In (Exec argv) (trace_of (run_task env config t (state_of r))) ->
         exists script, argv = [program config; "-command"; script]).
Proof.
  assert (Hrun : forall self script s c,
     nth_error (clients s) self = Some c ->
     filter is_exec (trace_of (run env self script s)) =
       [Exec (cmd c ++ [script])] /\
     nth_error (clients (state_of (run env self script s))) self =
       Some (mkClient (cmd c ++ [script]) (key c) (client_username c))).
  { intros self script s c Hc.
    pose proof (run_shape self script s) as R. rewrite Hc in R. cbv zeta in R.
    rewrite R.
    assert (Hlt : self < List.length (clients s)).
    { apply nth_error_Some. congruence. }
    destruct (run_process env _); unfold trace_of, state_of; cbn;
      (split; [reflexivity | now apply nth_error_set_nth_same]). }
  assert (Hinv : forall self hostname command prefs s c,
     nth_error (clients s) self = Some c ->
     invoke_command env self hostname command prefs s =
     run env self (create_script c hostname command prefs) s).
  { intros self hostname command prefs s c Hc.
    unfold invoke_command, bind. unfold deref at 1. unfold bind, get, ret. cbn.
    rewrite Hc. cbv beta iota.
    destruct (run env self _ s) as [[t s1] r].
    destruct r; reflexivity. }
  split; [|split; [|split]].
  - intros self script s c Hc. cbv zeta.
    destruct (Hrun self script s c Hc) as [H1 H2]. now rewrite H1, H2.
  - intros self script1 script2 s c Hc. cbv zeta.
    destruct (Hrun self script1 s c Hc) as [_ H2].
    destruct (Hrun self script2 _ _ H2) as [H3 _]. rewrite H3. cbn [cmd].
    now rewrite <- app_assoc.
  - intros self hostname1 command1 prefs1 hostname2 command2 prefs2 s c Hc. cbv zeta.
    rewrite (Hinv self hostname1 command1 prefs1 s c Hc).
    destruct (Hrun self (create_script c hostname1 command1 prefs1) s c Hc) as [_ H2].
    rewrite (Hinv self hostname2 command2 prefs2 _ _ H2).
    destruct (Hrun self (create_script
                (mkClient (cmd c ++ [create_script c hostname1 command1 prefs1])
                          (key c) (client_username c))
                hostname2 command2 prefs2) _ _ H2) as [H3 _].
    rewrite H3. cbn [cmd]. rewrite <- app_assoc. reflexivity.
  - intros raw_body body s Hc Hb.
    destruct (routes_four Hc) as (r0 & r1 & r2 & r3 & Hr).
    cbv zeta. rewrite (call_handler_valid s Hr Hb).
    unfold state_of. cbn [fst snd]. rewrite created_app.
    split; [apply spawned_nodup|].
    intros t Hin. apply spawned_in in Hin as (Hrange & Hbody & Hhost).
    assert (Hfresh : nth_error (clients s ++ repeat (new_client config)
                        (List.length (hostnames body))) (t_client t) =
                     Some (new_client config)) by now apply nth_error_fresh.
    split; [apply nth_error_None; lia|]. split; [exact Hfresh|].
    intros argv Hargv. unfold run_task in Hargv.
    destruct (invoking env (t_client t) (t_body t) (t_hostname t)
                (mkState (clients s ++ repeat (new_client config)
                            (List.length (hostnames body)))
                         (loop_tasks s ++ spawned (List.length (clients s)) body
                            (hostnames body)))) as [[tr s1] r] eqn:Hi.
    pose proof (invoking_trace (t_client t) (t_body t) (t_hostname t)
                (mkState (clients s ++ repeat (new_client config)
                            (List.length (hostnames body)))
                         (loop_tasks s ++ spawned (List.length (clients s)) body
                            (hostnames body)))) as (_ & _ & Hexec).
    rewrite Hi in Hexec. cbn [trace_of fst clients] in Hexec.
    rewrite (task_cases Hr Hi) in Hargv.
    assert (Hin : In (Exec argv) tr).
    { destruct r as [[out err]|e]; cbv zeta in Hargv.
      - destruct (nonempty out);
          [destruct (resolve_preferences out (event (t_body t)));
           [destruct (String.eqb (event (t_body t)) "Get-MpPreference");
            [|destruct (String.eqb (event (t_body t)) "Get-MpComputerStatus")]|]|];
        destruct (Nat.ltb 1 (String.length err));
        unfold trace_of in Hargv; cbn [fst] in Hargv;
        repeat (apply in_app_or in Hargv as [Hargv|Hargv]); auto;
        cbn in Hargv; unfold error_notice in Hargv;
        repeat (destruct Hargv as [Hargv|Hargv]; [discriminate|]);
        try contradiction.
      - unfold trace_of in Hargv; cbn [fst] in Hargv.
        apply in_app_or in Hargv as [Hargv|Hargv]; auto.
        cbn in Hargv; unfold error_notice in Hargv;
        repeat (destruct Hargv as [Hargv|Hargv]; [discriminate|]). contradiction. }
    destruct (Hexec argv Hin) as (c & prefs & Hcl & _ & ->).
    rewrite Hfresh in Hcl. injection Hcl as <-. cbn. eauto.
Qed.
End Facts.

(** ** The definitions at work *)


Lemma invalid_body_dropped_witness :
  let env := sample_env (Ret (sample_job "Get-MpThreat")) (Output "" "") in
  ~ In "Get-MpThreat" COMMANDS_IN_USE /\
  filter is_published
    (trace_of (call_handler env sample_config "job" empty_state)) = [] /\
  created empty_state
    (state_of (call_handler env sample_config "job" empty_state)) = [].
Proof.
  cbv zeta.
  assert (Hn : ~ In "Get-MpThreat" COMMANDS_IN_USE).
  { cbn. intros [H|[H|[H|[H|[H|[]]]]]]; discriminate H. }
  split; [exact Hn|].
  destruct (invalid_body_dropped
              (sample_env (Ret (sample_job "Get-MpThreat")) (Output "" ""))
              sample_config "job" empty_state) as (_ & Hpub & _ & Hcreated & _).
  - right. right.
    exists [("hostnames", JArr [JStr "h1"; JStr "h2"]); ("task_id", JInt 42);
            ("event", JStr "Get-MpThreat"); ("preferences", JObj [])],
           (JStr "Get-MpThreat"), "Get-MpThreat".
    repeat split. exact Hn.
  - split; [exact Hpub | exact Hcreated].
Defined.


(** C6.  With the event [Set-MpPreference], the output [ok] and the
    standard error [boom], four characters long, the task publishes
    nothing, no error notice either: [resolve_preferences] raises the
    [TypeError] before the standard error is looked at. *)
Theorem stderr_lost_after_output :
  let env := sample_env (Ret (sample_job "Set-MpPreference")) (Output "ok" "boom") in
  let r := process_invoking_command env sample_config 0
             (sample_body "Set-MpPreference") "h1" one_client in
  outcome_of (invoking env 0 (sample_body "Set-MpPreference")
                       "h1" one_client) = Ret ("ok", "boom") /\
  String.length "boom" = 4 /\
  filter is_published (trace_of r) = [] /\
  outcome_of r = Raise (mkExn TypeError "'NoneType' object is not callable").
Proof. cbv zeta. repeat split. Qed.

Lemma fresh_client_per_task_witness :
  let env := sample_env (Ret JNull) (Output "" "") in
  nth_error (clients one_client) 0 = Some (new_client sample_config) /\
  filter is_exec (trace_of (run env 0 "a" one_client)) =
    [Exec ["pwsh"; "-command"; "a"]] /\
  filter is_exec
    (trace_of (run env 0 "b"
                 (state_of (run env 0 "a" one_client)))) =
    [Exec ["pwsh"; "-command"; "a"; "b"]].
Proof.
  cbv zeta. split; [reflexivity|].
  destruct (fresh_client_per_task (sample_env (Ret JNull) (Output "" ""))
              sample_config) as (H1 & H2 & _ & _).
  split.
  - exact (proj1 (H1 0 "a" one_client (new_client sample_config) eq_refl)).
  - exact (H2 0 "a" "b" one_client (new_client sample_config) eq_refl).
Defined.

End DispatcherFacts.

Module BrokerFacts.
Import Broker.

(** ** Which clause catches which class *)

(** Of the classes of [CHANNEL_EXCEPTIONS], only [ChannelInvalidStateError]
    gets past the first clause: the others derive from [AMQPError]. *)
Lemma channel_classes_caught_first c text :
  In c CHANNEL_EXCEPTIONS ->
  isinstance (mkExn c text) CONNECTION_EXCEPTIONS =
  negb (exc_class_eqb c ChannelInvalidStateError).
Proof.
  intros H. cbn in H.
  repeat (destruct H as [<-|H]; [reflexivity|]). destruct H.
Qed.

Section Facts.
Variable srv : server.

(** ** The guarded call *)

Lemma handle_fault_flags failed e s :
  let s' := handle_fault failed e s in
  (isinstance e CONNECTION_EXCEPTIONS = true ->
     has_connection s' = false /\ has_channel s' = false) /\
  (isinstance e CONNECTION_EXCEPTIONS = false ->
   isinstance e CHANNEL_EXCEPTIONS = true ->
     has_connection s' = has_connection s /\ has_channel s' = false) /\
  (isinstance e CONNECTION_EXCEPTIONS = false ->
   isinstance e CHANNEL_EXCEPTIONS = false ->
     has_connection s' = has_connection s /\ has_channel s' = has_channel s).
Proof.
  unfold handle_fault.
  destruct (isinstance e CONNECTION_EXCEPTIONS), (isinstance e CHANNEL_EXCEPTIONS);
    cbn; repeat split; auto; discriminate.
Qed.

(** A fault of the guarded call itself, on a client whose flags are set:
    it is handled by the three clauses and the result is [None]. *)
Ltac fault_of_call Hc Hh He object :=
  unfold declare_exchange, declare_queue, bind_queue, check_connection;
  rewrite Hc; cbn [negb]; rewrite Hh; cbn [negb]; object;
  unfold on_object, request; rewrite He; reflexivity.

Lemma declare_exchange_fault fuel exchange_type exchange_name s ch e :
  has_connection s = true -> has_channel s = true -> channel s = Some ch ->
  srv (calls s) (DeclareExchange ch exchange_name exchange_type) = Some e ->
  declare_exchange srv fuel exchange_type exchange_name s =
  Some (handle_fault "Declaring exchange was failed. " e
          (fst (request srv (DeclareExchange ch exchange_name exchange_type) s)),
        Ret None).
Proof. intros Hc Hh Ho He. fault_of_call Hc Hh He ltac:(rewrite Ho). Qed.

Lemma declare_queue_fault fuel name s ch e :
  has_connection s = true -> has_channel s = true -> channel s = Some ch ->
  srv (calls s) (DeclareQueue ch name) = Some e ->
  declare_queue srv fuel name s =
  Some (handle_fault "Declaring queue was failed. " e
          (fst (request srv (DeclareQueue ch name) s)), Ret None).
Proof. intros Hc Hh Ho He. fault_of_call Hc Hh He ltac:(rewrite Ho). Qed.

Lemma bind_queue_fault fuel queue exchange routing_key s e :
  has_connection s = true -> has_channel s = true ->
  srv (calls s) (BindQueue queue exchange routing_key) = Some e ->
  bind_queue srv fuel (Some queue) exchange routing_key s =
  Some (handle_fault "Biding queue was failed. " e
          (fst (request srv (BindQueue queue exchange routing_key) s)), Ret None).
Proof. intros Hc Hh He. fault_of_call Hc Hh He idtac. Qed.

(** ** [create_connection] *)

Lemma create_connection_step fuel s :
  loop s = true ->
  create_connection srv (S fuel) s =
  match srv (calls s) ConnectRobust with
  | None =>
      Some (mkBroker (loop s) (Some (calls s)) (channel s) true (has_channel s)
              (S (calls s))
              (history s ++ [Info "Starting to set up new connection.";
                             Called ConnectRobust; Info "Connection was set up"]),
            Ret tt)
  | Some e =>
      match create_connection srv fuel (after_failure e s) with
      | None => None
      | Some (s', Raise e') => Some (s', Raise e')
      | Some (s', Ret _) =>
          Some (record (Info "Connection was set up") (set_has_connection true s'),
                Ret tt)
      end
  end.
Proof.
  intros Hloop. cbn [create_connection].
  cbv beta iota zeta delta
    [request sleep record set_connection set_has_connection after_failure].
  cbn [loop connection channel has_connection has_channel calls history].
  rewrite Hloop. destruct (srv (calls s) ConnectRobust) as [e|];
    cbn [loop connection channel has_connection has_channel calls history];
    rewrite <- ?app_assoc; rewrite ?Hloop; reflexivity.
Qed.





End Facts.

(** C7.  A channel-level fault does not reset the channel flag alone: the
    server closes the channel ([ChannelClosed], a class of
    [CHANNEL_EXCEPTIONS]) during the declaration or the binding, and the
    operation, which returns [None] without raising, leaves both
    [has_connection] and [has_channel] false, because the first [except]
    clause lists [AMQPError], a base class of [ChannelClosed]. *)
Theorem channel_fault_resets_both :
  let closed := mkExn ChannelClosed "closed" in
  isinstance closed CHANNEL_EXCEPTIONS = true /\
  (exists s, declare_exchange (failing_declare closed) 1 "direct" "ex" ready =
             Some (s, Ret None) /\
             has_connection s = false /\ has_channel s = false) /\
  (exists s, declare_queue (failing_declare closed) 1 "q" ready =
             Some (s, Ret None) /\
             has_connection s = false /\ has_channel s = false) /\
  (exists s, bind_queue (failing_declare closed) 1 (Some 2) "ex" None ready =
             Some (s, Ret None) /\
             has_connection s = false /\ has_channel s = false).
Proof.
  cbv zeta. split; [reflexivity|].
  repeat split; eexists; (split; [reflexivity|]); split; reflexivity.
Qed.

(** The one channel fault that the second clause sees. *)
Lemma invalid_state_resets_channel_only :
  exists s,
    declare_exchange (failing_declare (mkExn ChannelInvalidStateError "state"))
                     1 "direct" "ex" ready = Some (s, Ret None) /\
    has_connection s = true /\ has_channel s = false.
Proof. eexists. split; [reflexivity|]. split; reflexivity. Qed.




End BrokerFacts.

Module ParserFacts.
Import Re Resolver Notions ResolverFacts.

Lemma resolve_loop_names raw prefs : forall parsed l,
  resolve_loop raw prefs parsed = Ret l ->
  map pref_name l = (map pref_name parsed ++ filter (has_line raw) prefs)%list.
Proof.
  induction prefs as [|p prefs IH]; intros parsed l; cbn [resolve_loop filter].
  - intros [= <-]. now rewrite app_nil_r.
  - unfold resolve_step, has_line.
    destruct (re_search (pattern p) raw) as [g|]; cbn [obind].
    + destruct (convert (clean_value g)) as [x|e]; cbn [obind]; [|discriminate].
      intros H. rewrite (IH _ _ H), map_app, <- app_assoc. reflexivity.
    + apply IH.
Qed.

(** X1.  When [resolve_preferences] returns, the names of its records are
    exactly the fields of the event's list whose pattern matches the text,
    in the order of the list: one record per matched field, none for the
    others, so never more records than fields. *)
Theorem records_follow_field_order raw event prefs l :
  get_prefs_list event = Some (Ret prefs) ->
  resolve_preferences raw event = Ret l ->
  map pref_name l = filter (has_line raw) prefs /\
  List.length l <= List.length prefs.
Proof.
  intros Hev H. rewrite (resolve_preferences_loop _ _ _ Hev) in H.
  pose proof (resolve_loop_names _ _ _ _ H) as E. cbn in E. split; [exact E|].
  rewrite <- (length_map pref_name), E. apply filter_length_le.
Qed.

Lemma of_pos_chars cls :
  forallb cls (list_ascii_of_string "0123456789abcdef") = true ->
  forall p rest, all_chars cls rest = true ->
  all_chars cls (HexString.Raw.of_pos p rest) = true.
Proof.
  intros H. cbn in H.
  repeat (apply andb_true_iff in H as [? H]).
  fix IH 1. intros p rest R.
  do 4 try destruct p as [p|p|]; cbn [HexString.Raw.of_pos all_chars];
    try (apply IH; cbn [all_chars]);
    repeat match goal with E : cls _ = true |- _ => rewrite E; clear E end;
    cbn [andb]; exact R.
Qed.

Lemma hex_chars cls n :
  forallb cls (list_ascii_of_string "0123456789abcdefx") = true ->
  all_chars cls (hex n) = true.
Proof.
  intros H. unfold hex, HexString.of_N, HexString.of_pos.
  assert (H16 : forallb cls (list_ascii_of_string "0123456789abcdef") = true).
  { cbn in *. repeat (apply andb_true_iff in H as [? H]).
    repeat match goal with E : cls _ = true |- _ => rewrite E; clear E end.
    reflexivity. }
  cbn in H. repeat (apply andb_true_iff in H as [? H]).
  destruct n as [|p]; cbn [all_chars].
  - repeat match goal with E : cls _ = true |- _ => rewrite E; clear E end.
    reflexivity.
  - rewrite (of_pos_chars cls H16 p "" eq_refl).
    repeat match goal with E : cls _ = true |- _ => rewrite E; clear E end.
    reflexivity.
Qed.

Lemma hex_not_isdigit n : isdigit (hex n) = false.
Proof.
  unfold hex, HexString.of_N, HexString.of_pos. now destruct n.
Qed.

Lemma lstrip_id s : starts_with isspace s = false -> lstrip s = s.
Proof. destruct s as [|a s]; cbn; [reflexivity|]. now intros ->. Qed.

Lemma lstrip_stop s : starts_with isspace (lstrip s) = false.
Proof.
  induction s as [|a s IH]; cbn [lstrip]; [reflexivity|].
  destruct (isspace a) eqn:E; [exact IH|]. exact E.
Qed.

Lemma rstrip_idem s : rstrip (rstrip s) = rstrip s.
Proof.
  induction s as [|a s IH]; [reflexivity|]. cbn [rstrip].
  destruct (rstrip s) as [|b r] eqn:E.
  - destruct (isspace a) eqn:Ea; [reflexivity|]. cbn [rstrip]. now rewrite Ea.
  - change (rstrip (String a (String b r))) with
      (match rstrip (String b r) with
       | EmptyString => if isspace a then EmptyString else String a EmptyString
       | r' => String a r'
       end).
    now rewrite IH.
Qed.

Lemma rstrip_head s :
  starts_with isspace s = false -> starts_with isspace (rstrip s) = false.
Proof.
  destruct s as [|a s]; [reflexivity|]. cbn [starts_with rstrip]. intros E.
  destruct (rstrip s); [rewrite E|]; exact E.
Qed.

Lemma strip_idem s : strip (strip s) = strip s.
Proof.
  unfold strip. rewrite (lstrip_id (rstrip (lstrip s))).
  - apply rstrip_idem.
  - apply rstrip_head, lstrip_stop.
Qed.

Lemma strip_no_blank s : all_chars (fun c => negb (isspace c)) s = true -> strip s = s.
Proof.
  intros H. unfold strip.
  assert (L : lstrip s = s).
  { destruct s as [|a s]; [reflexivity|]. cbn in *.
    apply andb_true_iff in H as [H _]. now destruct (isspace a). }
  rewrite L. clear L. induction s as [|a s IH]; [reflexivity|].
  cbn [all_chars] in H. apply andb_true_iff in H as [Ha Hs].
  cbn [rstrip]. rewrite (IH Hs). destruct s; [|reflexivity].
  now destruct (isspace a).
Qed.

Lemma remove_char_absent c s :
  all_chars (fun a => negb (Ascii.eqb a c)) (remove_char c s) = true.
Proof.
  induction s as [|a s IH]; [reflexivity|]. cbn [remove_char].
  destruct (Ascii.eqb a c) eqn:E; [exact IH|]. cbn [all_chars]. now rewrite E, IH.
Qed.

Lemma all_chars_and p q s :
  all_chars (fun c => p c && q c) s = all_chars p s && all_chars q s.
Proof.
  induction s as [|a s IH]; [reflexivity|]. cbn [all_chars]. rewrite IH.
  destruct (p a), (q a), (all_chars p s), (all_chars q s); reflexivity.
Qed.

Lemma all_chars_impl (p q : ascii -> bool) s :
  (forall c, p c = true -> q c = true) ->
  all_chars p s = true -> all_chars q s = true.
Proof.
  intros I. induction s as [|a s IH]; [reflexivity|]. cbn [all_chars].
  intros H. apply andb_true_iff in H as [Ha Hs]. now rewrite (I _ Ha), IH.
Qed.

Lemma rstrip_strip y : rstrip (strip y) = strip y.
Proof. unfold strip. apply rstrip_idem. Qed.

Lemma clean_value_stripped g : strip (clean_value g) = clean_value g.
Proof. unfold clean_value. rewrite rstrip_strip. apply strip_idem. Qed.

(** X3.  The [rstrip] that follows [strip] when the captured text is cleaned
    finds nothing left to remove, and the cleaned text has no blank at
    either end. *)
Theorem clean_value_strip g :
  clean_value g = strip (remove_char "}" (remove_char "{" g)) /\
  strip (clean_value g) = clean_value g.
Proof.
  unfold clean_value.
  set (y := remove_char "}" (remove_char "{" g)).
  assert (E : rstrip (strip y) = strip y).
  { unfold strip. apply rstrip_idem. }
  rewrite E. split; [reflexivity|].
  unfold strip. rewrite (lstrip_id (rstrip (lstrip y))).
  - apply rstrip_idem.
  - apply rstrip_head, lstrip_stop.
Qed.

Lemma clean_value_tidy g : all_chars dot g = true ->
  all_chars tidy (clean_value g) = true.
Proof.
  intros D. unfold tidy, brace.
  assert (E : forall s,
    all_chars (fun c => negb (Ascii.eqb c "{")) s = true ->
    all_chars (fun c => negb (Ascii.eqb c "}")) s = true ->
    all_chars dot s = true ->
    all_chars (fun c => negb (Ascii.eqb c "{" || Ascii.eqb c "}") && dot c) s = true).
  { induction s as [|a s IH]; [reflexivity|]. cbn [all_chars]. intros A B C.
    apply andb_true_iff in A as [A1 A2], B as [B1 B2], C as [C1 C2].
    rewrite (IH A2 B2 C2), C1. now destruct (Ascii.eqb a "{"), (Ascii.eqb a "}"). }
  unfold clean_value, strip. apply E.
  - do 2 apply rstrip_chars. apply lstrip_chars, remove_char_chars, remove_char_absent.
  - do 2 apply rstrip_chars. apply lstrip_chars, remove_char_absent.
  - do 2 apply rstrip_chars.
    now apply lstrip_chars, remove_char_chars, remove_char_chars.
Qed.

Lemma group_dot pref raw g :
  re_search (pattern pref) raw = Some g -> all_chars dot g = true.
Proof.
  intros H. destruct (re_search_found _ _ _ H) as (pre & s & -> & M).
  apply rmatch_line in M. now destruct M as (ws & w & rest & _ & _ & _ & D & _).
Qed.

Lemma resolve_loop_values raw prefs : forall parsed l,
  resolve_loop raw prefs parsed = Ret l ->
  forall r, In r l ->
  In r parsed \/
  exists g, re_search (pattern (pref_name r)) raw = Some g /\
            convert (clean_value g) = Ret (pref_val r).
Proof.
  induction prefs as [|p prefs IH]; intros parsed l; cbn [resolve_loop].
  - intros [= <-] r Hr. now left.
  - unfold resolve_step.
    destruct (re_search (pattern p) raw) as [g|] eqn:E; cbn [obind].
    + destruct (convert (clean_value g)) as [x|e] eqn:C; cbn [obind]; [|discriminate].
      intros H r Hr. destruct (IH _ _ H r Hr) as [Hp|Hx]; [|now right].
      apply in_app_or in Hp as [Hp|[<-|[]]]; [now left|].
      right. exists g. now split.
    + intros H r Hr. destruct (IH _ _ H r Hr) as [Hp|Hx]; [now left | now right].
Qed.

(** X2.  Every value that [resolve_preferences] returns is clean: it never
    passes [isdigit] (a value of digits has become its hexadecimal form),
    it holds no brace and no newline, and stripping it changes nothing. *)
Theorem record_values_clean raw event l r :
  resolve_preferences raw event = Ret l -> In r l ->
  isdigit (pref_val r) = false /\
  all_chars tidy (pref_val r) = true /\
  strip (pref_val r) = pref_val r.
Proof.
  unfold resolve_preferences.
  destruct (get_prefs_list event) as [[prefs|e]|]; cbn [obind]; try discriminate.
  intros H Hr.
  destruct (resolve_loop_values _ _ _ _ H r Hr) as [[]|(g & S & C)].
  unfold convert in C. destruct (isdigit (clean_value g)) eqn:D.
  - destruct (int (clean_value g)) as [n|e]; cbn [obind] in C; [|discriminate].
    injection C as <-. split; [apply hex_not_isdigit|]. split.
    + apply hex_chars. reflexivity.
    + apply strip_no_blank, hex_chars. reflexivity.
  - injection C as <-. split; [exact D|]. split.
    + apply clean_value_tidy. eapply group_dot; eauto.
    + apply clean_value_stripped.
Qed.

Lemma rstrip_blank ws : all_chars isspace ws = true -> rstrip ws = "".
Proof.
  induction ws as [|a ws IH]; [reflexivity|]. cbn [all_chars rstrip].
  intros H. apply andb_true_iff in H as [Ha Hs]. now rewrite (IH Hs), Ha.
Qed.

Lemma rstrip_app_blank ws : all_chars isspace ws = true ->
  forall u, rstrip (u ++ ws) = rstrip u.
Proof.
  intros H. induction u as [|a u IH].
  - now apply rstrip_blank.
  - cbn [append rstrip]. now rewrite IH.
Qed.

Lemma rstrip_solid f : f <> "" -> all_chars solid f = true ->
  forall x, rstrip (x ++ f) = x ++ f.
Proof.
  intros Hne Hf.
  assert (B : rstrip f = f).
  { clear Hne. induction f as [|a f IH]; [reflexivity|]. cbn [all_chars] in Hf.
    apply andb_true_iff in Hf as [Ha Hs]. cbn [rstrip]. rewrite (IH Hs).
    destruct f; [|reflexivity]. unfold solid in Ha. now destruct (isspace a). }
  induction x as [|a x IH]; [exact B|]. cbn [append rstrip]. rewrite IH.
  destruct (x ++ f) eqn:E; [|reflexivity].
  destruct x; [cbn in E; congruence | discriminate E].
Qed.

Lemma first_colon u : forall u' t t',
  all_chars (fun c => negb (colon c)) u = true ->
  all_chars (fun c => negb (colon c)) u' = true ->
  u ++ String ":" t = u' ++ String ":" t' -> u = u'.
Proof.
  induction u as [|a u IH]; intros [|b u'] t t' Hu Hu' E; cbn in *.
  - reflexivity.
  - injection E as <- _. discriminate Hu'.
  - injection E as -> _. discriminate Hu.
  - injection E as -> E. apply andb_true_iff in Hu as [_ Hu], Hu' as [_ Hu'].
    f_equal. eapply IH; eauto.
Qed.

Lemma length_append (a b : string) :
  String.length (a ++ b) = String.length a + String.length b.
Proof. induction a as [|c a IH]; cbn; [reflexivity|]. now rewrite IH. Qed.

Lemma blank_no_colon ws :
  all_chars isspace ws = true -> all_chars (fun c => negb (colon c)) ws = true.
Proof.
  apply all_chars_impl. intros c H. unfold colon.
  destruct (Ascii.eqb_spec c ":") as [->|]; [discriminate H | reflexivity].
Qed.

Lemma solid_no_colon f :
  all_chars solid f = true -> all_chars (fun c => negb (colon c)) f = true.
Proof.
  apply all_chars_impl. intros c H. unfold solid in H.
  now apply andb_true_iff in H as [_ H].
Qed.

Lemma prefs_solid event prefs :
  get_prefs_list event = Some (Ret prefs) ->
  forall field, In field prefs -> field <> "" /\ all_chars solid field = true.
Proof.
  unfold get_prefs_list. intros H.
  assert (F : forallb (fun f => negb (String.eqb f "") && all_chars solid f) prefs = true).
  { destruct (String.eqb event "Get-MpPreference");
      [|destruct (String.eqb event "Get-MpComputerStatus"); [|discriminate]];
      injection H as <-; vm_compute; reflexivity. }
  intros field Hin. apply (proj1 (forallb_forall _ _) F) in Hin.
  apply andb_true_iff in Hin as [N S]. split; [|exact S].
  intros ->. discriminate N.
Qed.

(** X4.  The pattern of a field of the event's list is not tied to the start
    of a line, and the first match is the one used.  When the first colon
    of the text follows the field name and blanks, the value is the text
    after the colon and one blank, up to the end of that line, whatever
    stands in front of the name and whatever follows the line, later lines
    of the same field included.  The blank after the colon may be the line
    break; the value is then the next line. *)
Theorem name_found_inside_line event prefs field pre ws w g rest :
  get_prefs_list event = Some (Ret prefs) -> In field prefs ->
  all_chars (fun c => negb (colon c)) pre = true ->
  all_chars isspace ws = true -> isspace w = true ->
  all_chars dot g = true -> g <> "" ->
  captured (pre ++ field ++ ws ++ ":" ++ String w (g ++ nl ++ rest)) field
  = Some (clean_value g).
Proof.
  intros Hev Hin Hpre Hws Hw Hg Hg0.
  destruct (prefs_solid event prefs Hev field Hin) as [Hne Hf]. unfold captured.
  set (L := field ++ ws ++ ":" ++ String w (g ++ nl ++ rest)).
  assert (M : group_at (pattern field) L = Some g).
  { apply rmatch_line. now exists ws, w, rest. }
  enough (S : re_search (pattern field) (pre ++ L) = Some g) by now rewrite S.
  induction pre as [|a pre IH].
  - cbn [append]. rewrite re_search_eq. now rewrite M.
  - cbn [all_chars] in Hpre. apply andb_true_iff in Hpre as [Ha Hpre].
    change (String a pre ++ L) with (String a (pre ++ L)). rewrite re_search_eq.
    destruct (group_at (pattern field) (String a (pre ++ L))) as [g'|] eqn:E;
      [|now apply IH].
    exfalso. apply rmatch_line in E.
    destruct E as (ws' & w' & rest' & E & Hws' & _).
    assert (E' : (String a pre ++ field ++ ws) ++ String ":" (String w (g ++ nl ++ rest))
                 = (field ++ ws') ++ String ":" (String w' (g' ++ String newline rest'))).
    { rewrite ?append_assoc. exact E. }
    apply first_colon in E'.
    + apply (f_equal rstrip) in E'.
      rewrite <- append_assoc, (rstrip_app_blank ws Hws) in E'.
      rewrite (rstrip_app_blank ws' Hws') in E'.
      rewrite (rstrip_solid field Hne Hf (String a pre)) in E'.
      pose proof (rstrip_solid field Hne Hf "") as R0. cbn [append] in R0.
      rewrite R0 in E'.
      apply (f_equal String.length) in E'.
      cbn [append String.length] in E'. rewrite length_append in E'. lia.
    + rewrite !all_chars_app. cbn [all_chars]. rewrite Ha, Hpre.
      now rewrite (solid_no_colon _ Hf), (blank_no_colon _ Hws).
    + rewrite all_chars_app.
      now rewrite (solid_no_colon _ Hf), (blank_no_colon _ Hws').
Qed.












Lemma records_follow_field_order_witness :
  map pref_name [mkPref "AntivirusEnabled" "True"] =
    filter (has_line ("AntivirusEnabled : True" ++ nl))
      ["AntivirusSignatureLastUpdated"; "AntivirusSignatureVersion";
       "AntivirusEnabled"] /\
  List.length [mkPref "AntivirusEnabled" "True"] <=
  List.length ["AntivirusSignatureLastUpdated"; "AntivirusSignatureVersion";
               "AntivirusEnabled"].
Proof.
  refine (records_follow_field_order ("AntivirusEnabled : True" ++ nl)
            "Get-MpComputerStatus" _ _ _ _).
  - reflexivity.
  - vm_compute. reflexivity.
Defined.

Lemma record_values_clean_witness :
  isdigit "0x1" = false /\ all_chars tidy "0x1" = true /\ strip "0x1" = "0x1".
Proof.
  refine (record_values_clean scan_parameters_line "Get-MpPreference"
            [mkPref "ScanParameters" "0x1"] (mkPref "ScanParameters" "0x1") _ _).
  - vm_compute. reflexivity.
  - left. reflexivity.
Defined.

Lemma name_found_inside_line_witness :
  captured ("Disable" ++ "ScanParameters" ++ " " ++ ":"
            ++ String " " ("2" ++ nl ++ "ScanParameters : 1" ++ nl))
           "ScanParameters" = Some (clean_value "2").
Proof.
  refine (name_found_inside_line "Get-MpPreference" _ "ScanParameters" "Disable"
            " " " " "2" ("ScanParameters : 1" ++ nl) eq_refl _ _ _ _ _ _);
    try reflexivity; [vm_compute; tauto | discriminate].
Defined.


End ParserFacts.

Module CleanerFacts.
Import Re Dispatcher Notions ResolverFacts ParserFacts.

(** ** [clean_output] *)

Lemma re_sub_chars cls p : forall s skip,
  all_chars cls s = true -> all_chars cls (re_sub p skip s) = true.
Proof.
  induction s as [|a s IH]; intros skip H; [reflexivity|].
  cbn [all_chars] in H. apply andb_true_iff in H as [Ha Hs].
  cbn [re_sub]. destruct skip as [|k]; [|now apply IH].
  destruct (rmatch p (String a s) "") as [[g rest]|].
  - destruct (String.length (String a s) - String.length rest);
      [|now apply IH]. cbn [all_chars]. now rewrite Ha, IH.
  - cbn [all_chars]. now rewrite Ha, IH.
Qed.

Lemma re_sub_length p : forall s skip,
  String.length (re_sub p skip s) <= String.length s.
Proof.
  induction s as [|a s IH]; intros skip; [reflexivity|].
  cbn [re_sub]. destruct skip as [|k]; [cbn [String.length]|].
  - destruct (rmatch p (String a s) "") as [[g rest]|].
    + destruct (S (String.length s) - String.length rest).
      * cbn [String.length]. specialize (IH 0). lia.
      * specialize (IH n). lia.
    + cbn [String.length]. specialize (IH 0). lia.
  - cbn [String.length]. specialize (IH k). lia.
Qed.

Lemma remove_double_spaces_step a b rest :
  remove_double_spaces (String a (String b rest)) =
  if Ascii.eqb a " " && Ascii.eqb b " " then remove_double_spaces rest
  else String a (remove_double_spaces (String b rest)).
Proof. reflexivity. Qed.

Lemma remove_double_spaces_facts cls n : forall s, String.length s <= n ->
  (all_chars cls s = true -> all_chars cls (remove_double_spaces s) = true) /\
  String.length (remove_double_spaces s) <= String.length s /\
  has_double_space (remove_double_spaces s) = false.
Proof.
  induction n as [|n IH]; intros s L.
  - destruct s; [|cbn in L; lia]. cbn. auto.
  - destruct s as [|a [|b rest]]; [cbn; auto | cbn; auto |].
    rewrite remove_double_spaces_step.
    cbn [String.length] in L.
    destruct (Ascii.eqb a " " && Ascii.eqb b " ") eqn:E.
    + destruct (IH rest ltac:(lia)) as (C & Len & D). repeat split.
      * cbn [all_chars]. intros H.
        apply andb_true_iff in H as [_ H]. apply andb_true_iff in H as [_ H]. auto.
      * cbn [String.length]. lia.
      * exact D.
    + destruct (IH (String b rest) ltac:(cbn [String.length]; lia)) as (C & Len & D).
      repeat split.
      * intros H. change (all_chars cls (String a (String b rest)))
          with (cls a && all_chars cls (String b rest)) in H.
        apply andb_true_iff in H as [Ha H]. cbn [all_chars]. now rewrite Ha, C.
      * cbn [String.length] in *. lia.
      * destruct (remove_double_spaces (String b rest)) as [|c r] eqn:R; [reflexivity|].
        change (has_double_space (String a (String c r))) with
          ((Ascii.eqb a " " && Ascii.eqb c " ") || has_double_space (String c r)).
        rewrite D, orb_false_r.
        destruct (Ascii.eqb a " ") eqn:Ea; [|reflexivity]. cbn [andb] in *.
        destruct rest as [|c' rest'].
        -- cbn in R. injection R as <- _. exact E.
        -- rewrite remove_double_spaces_step, E in R. cbn [andb] in R.
           injection R as <- _. exact E.
Qed.

Lemma remove_double_spaces_chars cls s :
  all_chars cls s = true -> all_chars cls (remove_double_spaces s) = true.
Proof. apply (remove_double_spaces_facts cls (String.length s) s (le_n _)). Qed.

Lemma remove_double_spaces_length s :
  String.length (remove_double_spaces s) <= String.length s.
Proof. apply (remove_double_spaces_facts (fun _ => true) (String.length s) s (le_n _)). Qed.

Lemma remove_double_spaces_done s :
  has_double_space (remove_double_spaces s) = false.
Proof. apply (remove_double_spaces_facts (fun _ => true) (String.length s) s (le_n _)). Qed.

Section Removal.
Variables (cls : ascii -> bool) (p : list atom).
Hypothesis consumed : forall a s', cls a = true ->
  exists g rest, rmatch p (String a s') "" = Some (g, rest) /\
                 String.length rest <= String.length s'.

Lemma re_sub_removes : forall s skip,
  all_chars (fun c => negb (cls c)) (re_sub p skip s) = true.
Proof.
  induction s as [|a s IH]; intros skip; [reflexivity|].
  cbn [re_sub]. destruct skip as [|k]; [|apply IH].
  destruct (cls a) eqn:Ca.
  - destruct (consumed a s Ca) as (g & rest & -> & L).
    cbn [String.length].
    destruct (S (String.length s) - String.length rest) eqn:D; [lia|]. apply IH.
  - destruct (rmatch p (String a s) "") as [[g rest]|].
    + destruct (String.length (String a s) - String.length rest); [|apply IH].
      cbn [all_chars]. now rewrite Ca, IH.
    + cbn [all_chars]. now rewrite Ca, IH.
Qed.
End Removal.

Lemma escape_consumed a s' : Ascii.eqb a escape = true ->
  exists g rest, rmatch [Lit (String escape "")] (String a s') "" = Some (g, rest) /\
                 String.length rest <= String.length s'.
Proof.
  intros H. apply Ascii.eqb_eq in H. subst a.
  exists "", s'. split; [|lia]. rewrite rmatch_lit, strip_prefix_char.
  now rewrite Ascii.eqb_refl.
Qed.

Lemma tilde_consumed a s' : Ascii.eqb a "~" = true ->
  exists g rest, rmatch [Plus (Ascii.eqb "~")] (String a s') "" = Some (g, rest) /\
                 String.length rest <= String.length s'.
Proof.
  intros H. apply Ascii.eqb_eq in H. subst a. cbn [rmatch]. rewrite Ascii.eqb_refl.
  induction s' as [|b s IH].
  - exists "", "". auto.
  - destruct (Ascii.eqb "~" b).
    + destruct IH as (g & rest & -> & L). exists g, rest. split; [reflexivity|].
      cbn [String.length]. lia.
    + exists "", (String b s). auto.
Qed.

Lemma all_chars_ext (p q : ascii -> bool) s :
  (forall c, p c = q c) -> all_chars p s = all_chars q s.
Proof. intros E. induction s as [|a s IH]; cbn; [reflexivity|]. now rewrite E, IH. Qed.

(** X6.  The text that [clean_output] returns holds no escape character, no
    tilde and no two spaces in a row. *)
Theorem clean_output_residue source :
  all_chars (fun c => negb (residue c)) (clean_output source) = true /\
  has_double_space (clean_output source) = false.
Proof.
  unfold clean_output. split; [|apply remove_double_spaces_done].
  apply remove_double_spaces_chars.
  cbn [fold_left bad_patterns].
  rewrite (all_chars_ext _ (fun c => negb (Ascii.eqb c escape) && negb (Ascii.eqb c "~"))).
  2:{ intros c. unfold residue. apply negb_orb. }
  rewrite all_chars_and. apply andb_true_iff. split.
  - do 3 apply re_sub_chars. apply (re_sub_removes (fun c => Ascii.eqb c escape)).
    exact escape_consumed.
  - apply re_sub_chars. apply (re_sub_removes (fun c => Ascii.eqb c "~")).
    exact tilde_consumed.
Qed.


Lemma embeds_refl s : embeds s s.
Proof. induction s; constructor; assumption. Qed.

Lemma embeds_trans a b c : embeds a b -> embeds b c -> embeds a c.
Proof.
  intros H1 H2. revert a H1.
  induction H2 as [|x s t H IH|x s t H IH]; intros a H1.
  - exact H1.
  - constructor. now apply IH.
  - inversion H1; subst.
    + apply embeds_skip. now apply IH.
    + apply embeds_keep. now apply IH.
Qed.

Lemma re_sub_embeds p : forall s skip, embeds (re_sub p skip s) s.
Proof.
  induction s as [|a s IH]; intros skip; [constructor|].
  cbn [re_sub]. destruct skip as [|k]; [|constructor; apply IH].
  destruct (rmatch p (String a s) "") as [[g rest]|].
  - destruct (String.length (String a s) - String.length rest);
      [apply embeds_keep | apply embeds_skip]; apply IH.
  - apply embeds_keep, IH.
Qed.

Lemma remove_double_spaces_embeds n : forall s, String.length s <= n ->
  embeds (remove_double_spaces s) s.
Proof.
  induction n as [|n IH]; intros s L.
  - destruct s; [constructor | cbn in L; lia].
  - destruct s as [|a [|b rest]]; [constructor | apply embeds_refl |].
    rewrite remove_double_spaces_step. cbn [String.length] in L.
    destruct (Ascii.eqb a " " && Ascii.eqb b " ").
    + do 2 apply embeds_skip. apply IH. lia.
    + apply embeds_keep. apply IH. cbn [String.length]. lia.
Qed.

(** X7.  [clean_output] only deletes: its result is the source with some
    characters left out, the others in their order. *)
Theorem clean_output_embeds source : embeds (clean_output source) source.
Proof.
  unfold clean_output. cbn [fold_left bad_patterns].
  eapply embeds_trans; [apply (remove_double_spaces_embeds _ _ (le_n _))|].
  repeat (eapply embeds_trans; [apply re_sub_embeds|]). apply embeds_refl.
Qed.

End CleanerFacts.

Module HandlerFacts.
Import Re Resolver Dispatcher ResolverFacts DispatcherFacts.

Section Facts.
Variable env : environment.
Variable config : PowerShellConfig.

Lemma unpublished_in t d m :
  filter is_published t = [] -> ~ In (Published d m) t.
Proof.
  induction t as [|a t IH]; cbn; [tauto|].
  destruct (is_published a) eqn:E; [discriminate|].
  intros H [->|Hin]; [discriminate E | now apply IH].
Qed.

(** X8.  With the four routes in place, every message that a task publishes
    names the task's host and goes where its kind belongs: an error notice
    to [route_publish[0]], the parsed output to [route_publish[2]] for
    [Get-MpPreference] and to [route_publish[3]] for
    [Get-MpComputerStatus]; no other event publishes parsed output. *)
Theorem task_routing r0 r1 r2 r3 client body hostname s d m :
  route_publish config = Some [r0; r1; r2; r3] ->
  In (Published d m)
     (trace_of (process_invoking_command env config client body hostname s)) ->
  (d = destination_of r0 /\
   exists text, m = ErrorNotice hostname (ERROR_MSG text) ERROR_CAT) \/
  (exists prefs, m = Preferences hostname prefs /\
     ((event body = "Get-MpPreference" /\ d = destination_of r2) \/
      (event body = "Get-MpComputerStatus" /\ d = destination_of r3))).
Proof.
  intros Hr.
  destruct (invoking env client body hostname s) as [[t s1] r] eqn:Hi.
  pose proof (invoking_trace env client body hostname s) as (Hpub & _ & _).
  rewrite Hi in Hpub. cbn in Hpub.
  pose proof (unpublished_in t d m Hpub) as Ht.
  rewrite (task_cases env config Hr Hi).
  assert (Herrs : forall err,
    In (Published d m)
       (if Nat.ltb 1 (String.length err)
        then [error_notice r0 hostname err] else []) ->
    d = destination_of r0 /\
    exists text, m = ErrorNotice hostname (ERROR_MSG text) ERROR_CAT).
  { intros err H. destruct (Nat.ltb 1 (String.length err)); [|destruct H].
    destruct H as [H|[]]. unfold error_notice in H. injection H as <- <-. eauto. }
  destruct r as [[out err]|e]; cbv zeta.
  - destruct (nonempty out).
    + destruct (resolve_preferences out (event body)) as [prefs|e'];
        unfold trace_of; cbn [fst]; [|tauto].
      intros H. apply in_app_or in H as [H|H]; [tauto|].
      apply in_app_or in H as [H|H]; [|left; eauto].
      right. exists prefs.
      destruct (String.eqb_spec (event body) "Get-MpPreference") as [E1|E1];
        [|destruct (String.eqb_spec (event body) "Get-MpComputerStatus") as [E2|E2]].
      * destruct H as [H|[]]. injection H as <- <-. auto.
      * destruct H as [H|[]]. injection H as <- <-. auto.
      * destruct H.
    + unfold trace_of; cbn [fst]. intros H.
      apply in_app_or in H as [H|H]; [tauto | left; eauto].
  - unfold trace_of; cbn [fst]. intros H.
    apply in_app_or in H as [H|H]; [tauto|].
    destruct H as [H|[H|[]]]; [discriminate H|].
    unfold error_notice in H. injection H as <- <-. left. eauto.
Qed.





(** X10.  A command that ends with no output and at most one character on
    the standard error, once both are cleaned, is not reported: the task
    runs the process, publishes nothing and returns. *)
Theorem quiet_command_reports_nothing client body hostname s c prefs out err :
  check_routes config = Ret tt ->
  nth_error (clients s) client = Some c ->
  model_dict env (event body) (preferences body) = Ret prefs ->
  run_process env (cmd c ++ [create_script c hostname (event body) prefs])
    = Output out err ->
  clean_output out = "" ->
  String.length (clean_output err) <= 1 ->
  let r := process_invoking_command env config client body hostname s in
  trace_of r = [Exec (cmd c ++ [create_script c hostname (event body) prefs])] /\
  outcome_of r = Ret tt.
Proof.
  intros Hc Hn Hm Hp Ho He.
  destruct (routes_four config Hc) as (r0 & r1 & r2 & r3 & Hr).
  pose proof (invoking_shape env client body hostname s) as Hi.
  rewrite Hm, Hn in Hi.
  pose proof (run_shape env client (create_script c hostname (event body) prefs) s) as R.
  rewrite Hn in R. cbv zeta in R. rewrite Hp in R. rewrite R in Hi.
  cbv zeta. rewrite (task_cases env config Hr Hi). cbv zeta.
  rewrite Ho. cbn [nonempty].
  destruct (Nat.ltb_spec 1 (String.length (clean_output err))) as [L|L]; [lia|].
  unfold trace_of, outcome_of. cbn. auto.
Qed.


End Facts.

Lemma task_routing_witness :
  let hostname := "h1" in
  let d := destination_of (sample_route "mon") in
  let m := Preferences "h1" [mkPref "AntivirusEnabled" "True"] in
  (d = destination_of (sample_route "event.common") /\
   exists text, m = ErrorNotice hostname (ERROR_MSG text) ERROR_CAT) \/
  (exists prefs, m = Preferences hostname prefs /\
     ((event (sample_body "Get-MpComputerStatus") = "Get-MpPreference" /\
       d = destination_of (sample_route "settings_changed")) \/
      (event (sample_body "Get-MpComputerStatus") = "Get-MpComputerStatus" /\
       d = destination_of (sample_route "mon")))).
Proof.
  cbv zeta.
  refine (task_routing
            (sample_env (Ret (sample_job "Get-MpComputerStatus"))
                        (Output status_output ""))
            sample_config _ (sample_route "event.notify") _ _
            0 (sample_body "Get-MpComputerStatus") "h1" one_client _ _ _ _).
  - reflexivity.
  - vm_compute. right. left. reflexivity.
Defined.


Lemma quiet_command_reports_nothing_witness :
  let env := sample_env (Ret (sample_job "Set-MpPreference")) (Output "~~" "~") in
  let r := process_invoking_command env sample_config 0
             (sample_body "Set-MpPreference") "h1" one_client in
  trace_of r =
    [Exec (cmd (new_client sample_config) ++
           [create_script (new_client sample_config) "h1"
              (event (sample_body "Set-MpPreference")) []])] /\
  outcome_of r = Ret tt.
Proof.
  cbv zeta.
  refine (quiet_command_reports_nothing
            (sample_env (Ret (sample_job "Set-MpPreference")) (Output "~~" "~"))
            sample_config 0 (sample_body "Set-MpPreference") "h1" one_client
            (new_client sample_config) [] "~~" "~" _ _ _ _ _ _);
    try reflexivity.
  vm_compute. lia.
Defined.


End HandlerFacts.

Module ConnectionFacts.
Import Broker BrokerFacts Notions Gateway.

Section Facts.
Variable srv : server.

Lemma create_connection_post fuel : forall s s' r,
  create_connection srv fuel s = Some (s', r) ->
  channel s' = channel s /\ has_channel s' = has_channel s /\
  loop s' = loop s /\ calls s <= calls s' /\
  match r with
  | Ret _ => has_connection s' = true /\ connection s' <> None
  | Raise _ =>
      has_connection s' = false \/
      (has_connection s' = has_connection s /\ connection s' = connection s)
  end.
Proof.
  induction fuel as [|fuel IH]; intros s s' r; [discriminate|].
  destruct (loop s) eqn:Hloop.
  - rewrite (create_connection_step srv fuel s Hloop).
    destruct (srv (calls s) ConnectRobust) as [e|].
    + destruct (create_connection srv fuel (after_failure e s))
        as [[s1 [u|e']]|] eqn:R; [| |discriminate];
        destruct (IH _ _ _ R) as (H1 & H2 & H3 & H4 & H5);
        cbn [after_failure channel has_channel loop calls has_connection connection] in *;
        intros [= <- <-]; cbn; repeat split; auto; try lia; try tauto;
        try congruence.
    + intros [= <- <-]. cbn. repeat split; auto. discriminate.
  - cbn [create_connection]. unfold record at 1. cbn [loop]. rewrite Hloop.
    intros [= <- <-]. cbn. repeat split; auto.
Qed.

Lemma create_channel_post fuel s s' r :
  create_channel srv fuel s = Some (s', r) ->
  loop s' = loop s /\ calls s <= calls s' /\
  match connection s with
  | Some conn =>
      connection s' = Some conn /\
      match r with
      | Ret _ => has_channel s' = true /\ channel s' <> None /\
                 has_connection s' = has_connection s
      | Raise _ =>
          (has_channel s' = true /\ channel s' <> None /\
           has_connection s' = has_connection s) \/
          (has_channel s' = has_channel s /\ channel s' = channel s /\
           (has_connection s' = false \/ has_connection s' = has_connection s))
      end
  | None =>
      channel s' = channel s /\ has_channel s' = has_channel s /\
      match r with
      | Ret _ => has_connection s' = true /\ connection s' <> None
      | Raise _ =>
          has_connection s' = false \/
          (has_connection s' = has_connection s /\ connection s' = connection s)
      end
  end.
Proof.
  unfold create_channel. destruct (connection s) as [conn|] eqn:Hc.
  - unfold request. cbn [calls record history loop connection channel
                         has_connection has_channel].
    destruct (srv (calls s) (OpenChannel conn)) as [e|].
    + destruct (isinstance e CHANNEL_EXCEPTIONS); intros [= <- <-]; cbn;
        repeat split; auto; right; repeat split; auto.
    + cbn [set_channel set_has_channel calls record history loop connection channel
           has_connection has_channel].
      destruct (srv (S (calls s)) (SetQos (calls s) 100)) as [e|];
        intros [= <- <-]; cbn; repeat split; auto; try discriminate.
      left. repeat split; auto. discriminate.
  - intros H. destruct (create_connection_post _ _ _ _ H) as (H1 & H2 & H3 & H4 & H5).
    rewrite Hc in H5. repeat split; auto.
Qed.

Lemma check_connection_post fuel s s' r :
  consistent s -> check_connection srv fuel s = Some (s', r) ->
  consistent s' /\ loop s' = loop s /\ calls s <= calls s' /\
  (r = Ret tt -> has_connection s' = true /\ has_channel s' = true).
Proof.
  intros [C1 C2]. unfold check_connection.
  assert (F : forall s0, consistent s0 -> has_connection s0 = true ->
            forall s' r,
            (if negb (has_channel s0)
             then create_channel srv fuel
                    (record (Error "Error: there is no active channel.") s0)
             else Some (s0, Ret tt)) = Some (s', r) ->
            consistent s' /\ loop s' = loop s0 /\ calls s0 <= calls s' /\
            (r = Ret tt -> has_connection s' = true /\ has_channel s' = true)).
  { intros s0 [K1 K2] Hc s1 r1. destruct (has_channel s0) eqn:Hh; cbn [negb].
    - intros [= <- <-]. repeat split; auto; congruence.
    - intros H. apply create_channel_post in H.
      cbn [record connection loop calls has_channel channel has_connection] in H.
      destruct (connection s0) as [conn|] eqn:Hconn; [|now destruct (K1 Hc)].
      destruct H as (L & N & Hcn & H).
      destruct r1 as [[]|e].
      + destruct H as (H1 & H2 & H3). repeat split; auto; congruence.
      + destruct H as [(H1 & H2 & H3)|(H1 & H2 & H3)]; repeat split; auto;
          try congruence; try discriminate. }
  destruct (has_connection s) eqn:Hc; cbn [negb].
  - apply F; [split; auto; congruence | exact Hc].
  - destruct (create_connection srv fuel
                (record (Error "Error: there is no active connection.") s))
      as [[s1 [[]|e]]|] eqn:R; [| |discriminate].
    + destruct (create_connection_post _ _ _ _ R) as (H1 & H2 & H3 & H4 & H5 & H6).
      cbn [record channel has_channel loop calls] in *.
      intros H. apply F in H;
        [|split; [auto | intros X; rewrite H1; apply C2; congruence] | exact H5].
      destruct H as (K & L & N & P). repeat split; try apply K; try apply P; auto;
        try congruence; lia.
    + destruct (create_connection_post _ _ _ _ R) as (H1 & H2 & H3 & H4 & H5).
      cbn [record channel has_channel loop calls has_connection connection] in *.
      intros [= <- <-]. repeat split; auto; try congruence; try discriminate.
      * destruct H5 as [H5|[H5 H6]]; congruence.
      * intros X. rewrite H1. apply C2. congruence.
Qed.

Lemma handle_fault_consistent failed e s :
  consistent s -> consistent (handle_fault failed e s).
Proof.
  intros [C1 C2]. unfold handle_fault.
  destruct (isinstance e CONNECTION_EXCEPTIONS);
    [|destruct (isinstance e CHANNEL_EXCEPTIONS)]; split; cbn; auto; discriminate.
Qed.

Lemma request_consistent c s :
  consistent s -> consistent (fst (request srv c s)).
Proof. intros C. unfold request. destruct (srv (calls s) c); exact C. Qed.

Lemma guarded_consistent failed (obj : option nat) (c : nat -> call) s s' r
    (k : nat -> option nat) :
  consistent s ->
  match on_object srv obj c s with
  | (s, Ret x) => Some (s, Ret (k x))
  | (s, Raise e) => Some (handle_fault failed e s, Ret None)
  end = Some (s', r) ->
  consistent s'.
Proof.
  intros C. unfold on_object. destruct obj as [o|].
  - pose proof (request_consistent (c o) s C) as K.
    destruct (request srv (c o) s) as [s1 [x|e]]; intros [= <- <-]; cbn in K; auto.
    now apply handle_fault_consistent.
  - intros [= <- <-]. now apply handle_fault_consistent.
Qed.

Lemma create_connection_consistent fuel s s' r :
  consistent s -> create_connection srv fuel s = Some (s', r) -> consistent s'.
Proof.
  intros [C1 C2] H.
  apply create_connection_post in H as (H1 & H2 & _ & _ & H5). split.
  - destruct r; [tauto|]. intros X. destruct H5 as [H5|[H5 H6]]; [congruence|].
    rewrite H6. apply C1. congruence.
  - intros X. rewrite H1. apply C2. congruence.
Qed.

Lemma create_channel_consistent fuel s s' r :
  consistent s -> create_channel srv fuel s = Some (s', r) -> consistent s'.
Proof.
  intros [C1 C2] H.
  apply create_channel_post in H as (_ & _ & H).
  destruct (connection s) as [conn|] eqn:Hconn.
  - destruct H as [Hc H]. split; [intros _; congruence|].
    destruct r; [tauto|].
    destruct H as [H|(H1 & H2 & _)]; [tauto|].
    intros X. rewrite H2. apply C2. congruence.
  - destruct H as (H1 & H2 & H). split.
    + destruct r; [tauto|].
      intros X. destruct H as [H|[H H']]; [congruence|].
      rewrite H in X. now destruct (C1 X).
    + intros X. rewrite H1. apply C2. congruence.
Qed.

Lemma checked_consistent failed fuel (obj : client -> option nat) (c : nat -> call)
    s s' r (k : nat -> option nat) :
  consistent s ->
  match check_connection srv fuel s with
  | None => None
  | Some (s, Raise e) => Some (s, Raise e)
  | Some (s, Ret _) =>
      match on_object srv (obj s) c s with
      | (s, Ret x) => Some (s, Ret (k x))
      | (s, Raise e) => Some (handle_fault failed e s, Ret None)
      end
  end = Some (s', r) ->
  consistent s'.
Proof.
  intros C H.
  destruct (check_connection srv fuel s) as [[s1 [[]|e]]|] eqn:K; [| |discriminate].
  - apply (guarded_consistent _ _ _ _ _ _ k
             (proj1 (check_connection_post _ _ _ _ C K)) H).
  - injection H as <- _. apply (check_connection_post _ _ _ _ C K).
Qed.

(** X12.  The flags of the client never run ahead of its objects.  If
    [has_connection] implies a connection object and [has_channel] a
    channel object before [create_connection], [create_channel],
    [check_connection], [declare_exchange], [declare_queue] or
    [bind_queue], the same holds after it, whatever the server answers and
    however the operation ends. *)
Theorem flags_imply_objects fuel s s' :
  consistent s ->
  (forall r, create_connection srv fuel s = Some (s', r) -> consistent s') /\
  (forall r, create_channel srv fuel s = Some (s', r) -> consistent s') /\
  (forall r, check_connection srv fuel s = Some (s', r) -> consistent s') /\
  (forall exchange_type exchange_name r,
     declare_exchange srv fuel exchange_type exchange_name s = Some (s', r) ->
     consistent s') /\
  (forall name r, declare_queue srv fuel name s = Some (s', r) -> consistent s') /\
  (forall queue_object exchange routing_key r,
     bind_queue srv fuel queue_object exchange routing_key s = Some (s', r) ->
     consistent s').
Proof.
  intros C.
  split; [intros r; now apply create_connection_consistent|].
  split; [intros r; now apply create_channel_consistent|].
  split; [intros r H; apply (check_connection_post _ _ _ _ C H)|].
  split; [intros t n r H;
          apply (checked_consistent _ fuel channel _ s s' r Some C H)|].
  split; [intros n r H;
          apply (checked_consistent _ fuel channel _ s s' r Some C H)|].
  intros q e k r H.
  apply (checked_consistent _ fuel (fun _ => q) _ s s' r (fun _ => None) C H).
Qed.

(** X13.  On a client whose set flags have their objects, [declare_exchange]
    ends in one of three ways: it returns the exchange, both flags set,
    after the server accepted the declaration on the client's channel; it
    returns [None] after the server refused the declaration, both flags
    reset when the refusal is of a connection class; or it raises what
    [check_connection] raised.  It never returns [None] for want of a
    channel object. *)
Theorem declare_exchange_outcomes fuel exchange_type exchange_name s s' r :
  consistent s ->
  declare_exchange srv fuel exchange_type exchange_name s = Some (s', r) ->
  match r with
  | Ret (Some exchange) =>
      has_connection s' = true /\ has_channel s' = true /\
      exists ch, channel s' = Some ch /\ calls s <= exchange /\
        srv exchange (DeclareExchange ch exchange_name exchange_type) = None
  | Ret None =>
      exists i ch e, calls s <= i /\
        srv i (DeclareExchange ch exchange_name exchange_type) = Some e /\
        (isinstance e CONNECTION_EXCEPTIONS = true ->
         has_connection s' = false /\ has_channel s' = false)
  | Raise e => check_connection srv fuel s = Some (s', Raise e)
  end.
Proof.
  intros C. unfold declare_exchange.
  destruct (check_connection srv fuel s) as [[s1 [[]|e]]|] eqn:K; [| |discriminate].
  2:{ now intros [= <- <-]. }
  destruct (check_connection_post _ _ _ _ C K) as ([K1 K2] & _ & N & F).
  destruct (F eq_refl) as [Hc Hh].
  destruct (channel s1) as [ch|] eqn:Hch; [|now destruct (K2 Hh)].
  unfold on_object, request.
  destruct (srv (calls s1) (DeclareExchange ch exchange_name exchange_type))
    as [e|] eqn:E; intros [= <- <-].
  - exists (calls s1), ch, e. split; [exact N|]. split; [exact E|].
    intros X. now apply (handle_fault_flags "Declaring exchange was failed. " e).
  - cbn. repeat split; auto. exists ch. auto.
Qed.

Lemma check_connection_healthy fuel s :
  consistent s -> loop s = true ->
  (forall i c, calls s <= i -> srv i c = None) ->
  exists s', check_connection srv (S fuel) s = Some (s', Ret tt) /\
             calls s' <= calls s + 3.
Proof.
  intros [C1 C2] Hloop Hsrv. unfold check_connection.
  assert (F : forall s0, has_connection s0 = true -> connection s0 <> None ->
            calls s <= calls s0 ->
            exists s', (if negb (has_channel s0)
                        then create_channel srv (S fuel)
                               (record (Error "Error: there is no active channel.") s0)
                        else Some (s0, Ret tt)) = Some (s', Ret tt) /\
                       calls s' <= calls s0 + 2).
  { intros s0 Hc Hconn L. destruct (has_channel s0); cbn [negb].
    - exists s0. split; [reflexivity | lia].
    - unfold create_channel. cbn [record connection].
      destruct (connection s0) as [conn|]; [|congruence].
      unfold request. cbn [calls]. rewrite (Hsrv _ _ L).
      cbn [set_channel set_has_channel calls].
      rewrite (Hsrv (S (calls s0)) _ ltac:(lia)).
      eexists. split; [reflexivity|]. cbn. lia. }
  destruct (has_connection s) eqn:Hc; cbn [negb].
  - destruct (F s Hc (C1 eq_refl) (le_n _)) as (s' & -> & L).
    exists s'. split; [reflexivity|lia].
  - rewrite create_connection_step by exact Hloop.
    cbn [record calls]. rewrite (Hsrv _ _ (le_n _)).
    match goal with |- context [Some (?x, Ret tt)] =>
      destruct (F x) as (s' & E & L); [reflexivity | discriminate | cbn; lia |]
    end.
    rewrite E. exists s'. split; [reflexivity|]. cbn in L. lia.
Qed.

(** X14.  Whatever its flags say, a client whose set flags have their
    objects, with an event loop and a server that accepts every call from
    now on, sets up what is missing in [declare_exchange] and returns the
    exchange, both flags set, with at most four calls.  So the operation
    that follows a fault recovers from it. *)
Theorem healthy_server_recovers fuel exchange_type exchange_name s :
  consistent s -> loop s = true ->
  (forall i c, calls s <= i -> srv i c = None) ->
  exists s' exchange,
    declare_exchange srv (S fuel) exchange_type exchange_name s
      = Some (s', Ret (Some exchange)) /\
    has_connection s' = true /\ has_channel s' = true /\
    calls s' <= calls s + 4.
Proof.
  intros C Hloop Hsrv.
  destruct (check_connection_healthy fuel s C Hloop Hsrv) as (s1 & K & L).
  destruct (check_connection_post _ _ _ _ C K) as ([K1 K2] & _ & N & F).
  destruct (F eq_refl) as [Hc Hh].
  unfold declare_exchange. rewrite K.
  destruct (channel s1) as [ch|] eqn:Hch; [|now destruct (K2 Hh)].
  unfold on_object, request. rewrite (Hsrv _ _ N).
  eexists. eexists. split; [reflexivity|]. cbn. repeat split; auto. lia.
Qed.
End Facts.

Lemma flags_imply_objects_witness :
  exists s', check_connection accepting 1 fresh = Some (s', Ret tt) /\ consistent s'.
Proof.
  eexists. split; [vm_compute; reflexivity|].
  refine (proj1 (proj2 (proj2 (flags_imply_objects accepting 1 fresh _ _))) (Ret tt) _).
  - split; discriminate.
  - vm_compute. reflexivity.
Defined.

Lemma declare_exchange_outcomes_witness :
  exists s',
    declare_exchange accepting 1 "direct" "commands" fresh = Some (s', Ret (Some 3)) /\
    has_connection s' = true /\ has_channel s' = true /\
    exists ch, channel s' = Some ch /\ calls fresh <= 3 /\
      accepting 3 (DeclareExchange ch "commands" "direct") = None.
Proof.
  eexists. split; [vm_compute; reflexivity|].
  refine (declare_exchange_outcomes accepting 1 "direct" "commands" fresh _
            (Ret (Some 3)) _ _).
  - split; discriminate.
  - vm_compute. reflexivity.
Defined.

Lemma healthy_server_recovers_witness :
  exists s' exchange,
    declare_exchange accepting 1 "direct" "commands" fresh
      = Some (s', Ret (Some exchange)) /\
    has_connection s' = true /\ has_channel s' = true /\
    calls s' <= calls fresh + 4.
Proof.
  refine (healthy_server_recovers accepting 0 "direct" "commands" fresh _ _ _).
  - split; discriminate.
  - reflexivity.
  - intros i c _. reflexivity.
Defined.

End ConnectionFacts.

Module GatewayFacts.
Import Broker BrokerFacts Notions Gateway ConnectionFacts.

Section Facts.
Variable srv : server.
Variable car : carrier.

Lemma check_connection_ready fuel s :
  has_connection s = true -> has_channel s = true ->
  check_connection srv fuel s = Some (s, Ret tt).
Proof. intros Hc Hh. unfold check_connection. rewrite Hc. cbn. now rewrite Hh. Qed.

Lemma request_accepted c s :
  srv (calls s) c = None -> request srv c s = (called c s, Ret (calls s)).
Proof. intros H. unfold request. now rewrite H. Qed.

Lemma request_refused c s e :
  srv (calls s) c = Some e -> request srv c s = (called c s, Raise e).
Proof. intros H. unfold request. now rewrite H. Qed.

Lemma valid_type_init d :
  In (Dispatcher.d_exchange_type d) EXCHANGE_TYPES ->
  RoutePublish_init d =
  Ret (Dispatcher.mkRoute (Dispatcher.d_exchange d) (Dispatcher.d_routing_key d)
         (Dispatcher.d_exchange_type d) true None).
Proof.
  intros H. unfold RoutePublish_init, maps_reporting_valid.
  destruct (existsb (String.eqb (Dispatcher.d_exchange_type d)) EXCHANGE_TYPES) eqn:E;
    [reflexivity|].
  assert (X : existsb (String.eqb (Dispatcher.d_exchange_type d)) EXCHANGE_TYPES = true).
  { apply existsb_exists. eexists. split; [exact H | apply String.eqb_refl]. }
  congruence.
Qed.



Lemma declare_exchange_ready fuel exchange_type exchange_name s ch :
  has_connection s = true -> has_channel s = true -> channel s = Some ch ->
  declare_exchange srv fuel exchange_type exchange_name s =
  match srv (calls s) (DeclareExchange ch exchange_name exchange_type) with
  | None => Some (called (DeclareExchange ch exchange_name exchange_type) s,
                  Ret (Some (calls s)))
  | Some e =>
      Some (handle_fault "Declaring exchange was failed. " e
              (called (DeclareExchange ch exchange_name exchange_type) s), Ret None)
  end.
Proof.
  intros Hc Hh Hch. unfold declare_exchange.
  rewrite (check_connection_ready fuel s Hc Hh), Hch. unfold on_object, request.
  now destruct (srv (calls s) _).
Qed.

Lemma declare_queue_ready fuel name s ch :
  has_connection s = true -> has_channel s = true -> channel s = Some ch ->
  declare_queue srv fuel name s =
  match srv (calls s) (DeclareQueue ch name) with
  | None => Some (called (DeclareQueue ch name) s, Ret (Some (calls s)))
  | Some e =>
      Some (handle_fault "Declaring queue was failed. " e
              (called (DeclareQueue ch name) s), Ret None)
  end.
Proof.
  intros Hc Hh Hch. unfold declare_queue.
  rewrite (check_connection_ready fuel s Hc Hh), Hch. unfold on_object, request.
  now destruct (srv (calls s) _).
Qed.

Lemma bind_queue_ready fuel queue exchange routing_key s :
  has_connection s = true -> has_channel s = true ->
  bind_queue srv fuel (Some queue) exchange routing_key s =
  match srv (calls s) (BindQueue queue exchange routing_key) with
  | None => Some (called (BindQueue queue exchange routing_key) s, Ret None)
  | Some e =>
      Some (handle_fault "Biding queue was failed. " e
              (called (BindQueue queue exchange routing_key) s), Ret None)
  end.
Proof.
  intros Hc Hh. unfold bind_queue.
  rewrite (check_connection_ready fuel s Hc Hh). unfold on_object, request.
  now destruct (srv (calls s) _).
Qed.



(** X16.  On servers that accept every call, [publish] hands the body to the
    exchange it has just declared, under the destination's routing key. *)
Theorem publish_delivers fuel body destination b :
  consistent (base b) -> loop (base b) = true ->
  healthy_from (calls (base b)) srv car ->
  In (Dispatcher.d_exchange_type destination) EXCHANGE_TYPES ->
  exists s1 ch b',
    check_connection srv (S fuel) (base b) = Some (s1, Ret tt) /\
    channel s1 = Some ch /\
    publish srv car (S fuel) body destination b = Some (b', Ret tt) /\
    history (base b') =
      (history s1 ++
       [Called (DeclareExchange ch (Dispatcher.d_exchange destination)
                  (Dispatcher.d_exchange_type destination))])%list /\
    sent b' =
      (sent b ++
       [(S (calls s1),
         Publish (calls s1) body (Dispatcher.d_routing_key destination))])%list /\
    has_connection (base b') = true /\ has_channel (base b') = true.
Proof.
  intros C Hloop Hh Hin.
  destruct (check_connection_healthy srv fuel (base b) C Hloop
              (fun i c L => proj1 (Hh i L) c)) as (s1 & K & L).
  destruct (check_connection_post _ _ _ _ _ C K) as ([C1 C2] & _ & N & F).
  destruct (F eq_refl) as [Hc Hch].
  destruct (channel s1) as [ch|] eqn:Ech; [|now destruct (C2 Hch)].
  exists s1, ch.
  assert (P : exists b', publish srv car (S fuel) body destination b = Some (b', Ret tt) /\
     history (base b') =
      (history s1 ++
       [Called (DeclareExchange ch (Dispatcher.d_exchange destination)
                  (Dispatcher.d_exchange_type destination))])%list /\
    sent b' =
      (sent b ++
       [(S (calls s1),
         Publish (calls s1) body (Dispatcher.d_routing_key destination))])%list /\
    has_connection (base b') = true /\ has_channel (base b') = true).
  { unfold publish. rewrite K, (valid_type_init _ Hin).
    cbn [Dispatcher.exchange_type Dispatcher.exchange Dispatcher.routing_key].
    rewrite (declare_exchange_ready (S fuel) _ _ s1 ch Hc Hch Ech).
    rewrite (proj1 (Hh _ N)).
    unfold on_target, perform, with_base.
    cbn [base called calls sent route_consume].
    rewrite (proj2 (Hh (S (calls s1)) ltac:(lia))).
    eexists. split; [reflexivity|]. cbn. auto. }
  destruct P as (b' & P). exists b'. tauto.
Qed.

(** X17.  When the server refuses the declaration, the message is dropped:
    [publish] calls [publish] on the [None] that [declare_exchange]
    returned, logs the [AttributeError] and returns. *)
Theorem undeclared_exchange_drops_message fuel body destination b ch e :
  has_connection (base b) = true -> has_channel (base b) = true ->
  channel (base b) = Some ch ->
  In (Dispatcher.d_exchange_type destination) EXCHANGE_TYPES ->
  srv (calls (base b))
      (DeclareExchange ch (Dispatcher.d_exchange destination)
         (Dispatcher.d_exchange_type destination)) = Some e ->
  exists b' text,
    publish srv car fuel body destination b = Some (b', Ret tt) /\
    sent b' = sent b /\
    calls (base b') = S (calls (base b)) /\
    history (base b') =
      (history (base b) ++
       [Called (DeclareExchange ch (Dispatcher.d_exchange destination)
                  (Dispatcher.d_exchange_type destination));
        Error text;
        Error "Broker publishing is failed. 'NoneType' object has no attribute 'publish'"])%list.
Proof.
  intros Hc Hch Ech Hin He.
  assert (P : publish srv car fuel body destination b =
    Some (with_base
            (handle_fault "Broker publishing is failed. "
               (mkExn AttributeError "'NoneType' object has no attribute 'publish'")
               (handle_fault "Declaring exchange was failed. " e
                  (called (DeclareExchange ch (Dispatcher.d_exchange destination)
                             (Dispatcher.d_exchange_type destination)) (base b)))) b,
          Ret tt)).
  { unfold publish.
    rewrite (check_connection_ready fuel _ Hc Hch), (valid_type_init _ Hin).
    cbn [Dispatcher.exchange_type Dispatcher.exchange Dispatcher.routing_key].
    rewrite (declare_exchange_ready fuel _ _ _ ch Hc Hch Ech), He.
    reflexivity. }
  rewrite P. clear P.
  unfold handle_fault at 1. cbn [isinstance exn_class].
  replace (existsb (issubclass AttributeError) CONNECTION_EXCEPTIONS) with false
    by reflexivity.
  replace (existsb (issubclass AttributeError) CHANNEL_EXCEPTIONS) with false
    by reflexivity.
  unfold handle_fault.
  destruct (isinstance e CONNECTION_EXCEPTIONS);
    [|destruct (isinstance e CHANNEL_EXCEPTIONS)];
    eexists; eexists; (split; [reflexivity|]); cbn;
    rewrite <- ?app_assoc; cbn; repeat split.
Qed.

(** X18.  On servers that accept every call, [consume] declares the exchange and
    the queue of the consume route, binds them and starts the consumer on
    that queue. *)
Theorem consume_starts fuel b route :
  consistent (base b) -> loop (base b) = true ->
  healthy_from (calls (base b)) srv car ->
  route_consume b = Some route ->
  exists s1 ch b',
    check_connection srv (S fuel) (base b) = Some (s1, Ret tt) /\
    channel s1 = Some ch /\
    consume srv car (S fuel) b = Some (b', Ret tt) /\
    history (base b') =
      (history s1 ++
       [Called (DeclareExchange ch (exchange route) (exchange_type route));
        Called (DeclareQueue ch (queue_name route));
        Called (BindQueue (S (calls s1)) (exchange route) (routing_key route))])%list /\
    sent b' = (sent b ++ [(3 + calls s1, Consume (S (calls s1)))])%list.
Proof.
  intros C Hloop Hh Hr.
  destruct (check_connection_healthy srv fuel (base b) C Hloop
              (fun i c L => proj1 (Hh i L) c)) as (s1 & K & L).
  destruct (check_connection_post _ _ _ _ _ C K) as ([C1 C2] & _ & N & F).
  destruct (F eq_refl) as [Hc Hch].
  destruct (channel s1) as [ch|] eqn:Ech; [|now destruct (C2 Hch)].
  exists s1, ch.
  assert (P : exists b', consume srv car (S fuel) b = Some (b', Ret tt) /\
    history (base b') =
      (history s1 ++
       [Called (DeclareExchange ch (exchange route) (exchange_type route));
        Called (DeclareQueue ch (queue_name route));
        Called (BindQueue (S (calls s1)) (exchange route) (routing_key route))])%list /\
    sent b' = (sent b ++ [(3 + calls s1, Consume (S (calls s1)))])%list).
  { unfold consume. rewrite K, Hr.
    rewrite (declare_exchange_ready (S fuel) _ _ s1 ch Hc Hch Ech).
    rewrite (proj1 (Hh _ N)).
    rewrite (declare_queue_ready (S fuel) _ _ ch) by assumption.
    cbn [called calls].
    rewrite (proj1 (Hh (S (calls s1)) ltac:(lia))).
    rewrite bind_queue_ready by assumption.
    cbn [called calls].
    rewrite (proj1 (Hh (S (S (calls s1))) ltac:(lia))).
    unfold on_target, perform, with_base.
    cbn [base called calls sent route_consume].
    rewrite (proj2 (Hh (S (S (S (calls s1)))) ltac:(lia))).
    eexists. split; [reflexivity|]. cbn. rewrite <- !app_assoc. auto. }
  destruct P as (b' & P). exists b'. tauto.
Qed.

(** X19.  [consume] starts the consumer at most once, and only on a queue whose
    declaration the server accepted; in every other case it ends, normally
    or not, without consuming. *)
Theorem consume_needs_declared_queue fuel b b' r :
  consume srv car fuel b = Some (b', r) ->
  sent b' = sent b \/
  exists route n q ch,
    route_consume b = Some route /\
    sent b' = (sent b ++ [(n, Consume q)])%list /\
    srv q (DeclareQueue ch (queue_name route)) = None.
Proof.
  unfold consume.
  destruct (check_connection srv fuel (base b)) as [[s1 [[]|e1]]|];
    [| now intros [= <- <-]; left | discriminate].
  destruct (route_consume b) as [route|] eqn:Hr; [|now intros [= <- <-]; left].
  destruct (declare_exchange srv fuel (exchange_type route) (exchange route) s1)
    as [[s2 [x|e2]]|]; [| now intros [= <- <-]; left | discriminate].
  destruct (declare_queue srv fuel (queue_name route) s2)
    as [[s3 [q|e3]]|] eqn:Q; [| now intros [= <- <-]; left | discriminate].
  destruct (bind_queue srv fuel q (exchange route) (routing_key route) s3)
    as [[s4 [y|e4]]|]; [| now intros [= <- <-]; left | discriminate].
  destruct q as [q|].
  - unfold on_target, perform, with_base. cbn [base sent route_consume calls].
    assert (D : exists ch, srv q (DeclareQueue ch (queue_name route)) = None).
    { unfold declare_queue in Q.
      destruct (check_connection srv fuel s2) as [[s2' [[]|e]]|]; try discriminate.
      unfold on_object in Q. destruct (channel s2') as [ch|]; [|discriminate].
      unfold request in Q.
      destruct (srv (calls s2') (DeclareQueue ch (queue_name route))) eqn:E;
        [discriminate|]. injection Q as _ <-. eauto. }
    destruct D as [ch D].
    destruct (car (calls s4) (Consume q)); intros [= <- <-]; right;
      exists route, (calls s4), q, ch; cbn; auto.
  - unfold on_target. intros [= <- <-]. left. reflexivity.
Qed.
End Facts.

Section EndToEnd.
Variable env : Dispatcher.environment.
Variable config : Dispatcher.PowerShellConfig.
Variable srv : server.
Variable car : carrier.

End EndToEnd.


Lemma publish_delivers_witness :
  let destination :=
    Dispatcher.destination_of (Dispatcher.sample_route "event.notify") in
  exists s1 ch b',
    check_connection accepting 1 (base (new_broker None)) = Some (s1, Ret tt) /\
    channel s1 = Some ch /\
    publish accepting delivering 1 (Dispatcher.TaskAccepted 42) destination
      (new_broker None) = Some (b', Ret tt) /\
    history (base b') =
      (history s1 ++
       [Called (DeclareExchange ch (Dispatcher.d_exchange destination)
                  (Dispatcher.d_exchange_type destination))])%list /\
    sent b' =
      (sent (new_broker None) ++
       [(S (calls s1),
         Publish (calls s1) (Dispatcher.TaskAccepted 42)
           (Dispatcher.d_routing_key destination))])%list /\
    has_connection (base b') = true /\ has_channel (base b') = true.
Proof.
  cbv zeta.
  refine (publish_delivers accepting delivering 0 (Dispatcher.TaskAccepted 42)
            (Dispatcher.destination_of (Dispatcher.sample_route "event.notify"))
            (new_broker None) _ _ _ _).
  - split; discriminate.
  - reflexivity.
  - intros i _. split; reflexivity.
  - cbn. auto.
Defined.

Lemma undeclared_exchange_drops_message_witness :
  let destination :=
    Dispatcher.destination_of (Dispatcher.sample_route "event.notify") in
  let refused := mkExn OSError "refused" in
  exists b' text,
    publish (failing_declare refused) delivering 1 (Dispatcher.TaskAccepted 42)
      destination ready_broker = Some (b', Ret tt) /\
    sent b' = sent ready_broker /\
    calls (base b') = S (calls (base ready_broker)) /\
    history (base b') =
      (history (base ready_broker) ++
       [Called (DeclareExchange 1 (Dispatcher.d_exchange destination)
                  (Dispatcher.d_exchange_type destination));
        Error text;
        Error "Broker publishing is failed. 'NoneType' object has no attribute 'publish'"])%list.
Proof.
  cbv zeta.
  refine (undeclared_exchange_drops_message (failing_declare (mkExn OSError "refused"))
            delivering 1 (Dispatcher.TaskAccepted 42)
            (Dispatcher.destination_of (Dispatcher.sample_route "event.notify"))
            ready_broker 1 (mkExn OSError "refused") _ _ _ _ _);
    try reflexivity.
  cbn. auto.
Defined.

Lemma consume_starts_witness :
  exists s1 ch b',
    check_connection accepting 1 (base (new_broker (Some jobs_route)))
      = Some (s1, Ret tt) /\
    channel s1 = Some ch /\
    consume accepting delivering 1 (new_broker (Some jobs_route)) = Some (b', Ret tt) /\
    history (base b') =
      (history s1 ++
       [Called (DeclareExchange ch (exchange jobs_route) (exchange_type jobs_route));
        Called (DeclareQueue ch (queue_name jobs_route));
        Called (BindQueue (S (calls s1)) (exchange jobs_route)
                  (routing_key jobs_route))])%list /\
    sent b' = (sent (new_broker (Some jobs_route))
               ++ [(3 + calls s1, Consume (S (calls s1)))])%list.
Proof.
  refine (consume_starts accepting delivering 0 (new_broker (Some jobs_route))
            jobs_route _ _ _ _).
  - split; discriminate.
  - reflexivity.
  - intros i _. split; reflexivity.
  - reflexivity.
Defined.

Lemma consume_needs_declared_queue_witness :
  let refused := mkExn OSError "refused" in
  let b := mkGateway ready (Some jobs_route) [] in
  exists b',
    consume (failing_declare refused) delivering 1 b = Some (b', Ret tt) /\
    (sent b' = sent b \/
     exists route n q ch,
       route_consume b = Some route /\
       sent b' = (sent b ++ [(n, Consume q)])%list /\
       failing_declare refused q (DeclareQueue ch (queue_name route)) = None).
Proof.
  cbv zeta. eexists. split; [vm_compute; reflexivity|].
  refine (consume_needs_declared_queue (failing_declare (mkExn OSError "refused"))
            delivering 1 (mkGateway ready (Some jobs_route) []) _ (Ret tt) _).
  vm_compute. reflexivity.
Defined.


End GatewayFacts.

Module ServiceFacts.
Import Dispatcher Service.

Lemma filter_service_malformed identifier item f : forall items,
  In item items -> getitem item "service" = Failed f ->
  exists f', filter_service identifier items = Failed f'.
Proof.
  induction items as [|a items IH]; intros Hin Hf; [destruct Hin|].
  cbn [filter_service]. destruct Hin as [->|Hin].
  - rewrite Hf. cbn. eauto.
  - destruct (getitem a "service"); cbn; [|eauto].
    destruct (IH Hin Hf) as [f' ->]. cbn. eauto.
Qed.

(** X21.  One entry of the routes file that is not an object with a [service]
    key, wherever it stands and whichever service it was meant for, makes
    [_take_routes] fail with [ValueError] and leaves the configuration as it
    was. *)
Theorem malformed_entry_rejects_all json_loads text items item f config :
  json_loads text = Ret (JArr items) ->
  In item items -> getitem item "service" = Failed f ->
  take_routes json_loads (Some text) config =
  (["Routes was not provided."], config,
   Some (Builtin (mkExn ValueError "Routes was not provided."))).
Proof.
  intros Hl Hin Hf. unfold take_routes, load_routes. rewrite Hl.
  cbn [and_then]. unfold find_routes. cbn [iterate and_then].
  destruct (filter_service_malformed (identifier config) item f items Hin Hf) as [f' ->].
  reflexivity.
Qed.

Lemma filter_service_skip identifier : forall before kept,
  (forall item, In item before ->
     exists v, getitem item "service" = Done v /\ equals_identifier v identifier = false) ->
  forall rest, filter_service identifier rest = Done kept ->
  filter_service identifier (before ++ rest) = Done kept.
Proof.
  induction before as [|a before IH]; intros kept H rest Hr; [exact Hr|].
  cbn [app filter_service].
  destruct (H a (or_introl eq_refl)) as (v & -> & E). cbn [and_then].
  rewrite (IH kept (fun item Hi => H item (or_intror Hi)) rest Hr). cbn. now rewrite E.
Qed.

(** X22.  When every entry of the file is an object with a [service] key, the
    routes taken are those of the first entry whose service is the
    identifier; later entries of the same service are ignored. *)
Theorem first_entry_of_service_wins identifier before entry after service :
  (forall item, In item before ->
     exists v, getitem item "service" = Done v /\
               equals_identifier v identifier = false) ->
  getitem entry "service" = Done service ->
  equals_identifier service identifier = true ->
  (forall item, In item after -> exists v, getitem item "service" = Done v) ->
  find_routes identifier (JArr (before ++ entry :: after)) = getitem entry "routes".
Proof.
  intros Hb Hs He Ha. unfold find_routes. cbn [iterate and_then].
  assert (A : exists kept, filter_service identifier after = Done kept).
  { clear -Ha. induction after as [|a after IH]; [now exists []|].
    cbn [filter_service]. destruct (Ha a (or_introl eq_refl)) as (v & ->).
    destruct (IH (fun item Hi => Ha item (or_intror Hi))) as (kept & ->).
    cbn. eauto. }
  destruct A as (kept & A).
  rewrite (filter_service_skip identifier before (entry :: kept) Hb).
  - reflexivity.
  - cbn [filter_service]. rewrite Hs, A. cbn. now rewrite He.
Qed.

Lemma lookup_set_key key value : forall d, lookup key (set_key key value d) = Some value.
Proof.
  induction d as [|[k v] d IH]; cbn.
  - now rewrite String.eqb_refl.
  - destruct (String.eqb key k) eqn:E; cbn; rewrite E; auto.
Qed.

Lemma lookup_set_key_other key value key' : key' <> key ->
  forall d, lookup key' (set_key key value d) = lookup key' d.
Proof.
  intros N. induction d as [|[k v] d IH]; cbn.
  - destruct (String.eqb_spec key' key); [contradiction | reflexivity].
  - destruct (String.eqb_spec key k) as [->|E]; cbn.
    + destruct (String.eqb_spec key' k); [contradiction | reflexivity].
    + now rewrite IH.
Qed.

Ltac simp H :=
  cbn [and_then setitem handler_config broker_config type
       set_broker_config set_handler_config] in H.

(** X23.  When [_take_routes] returns, the routes were found; for the types
    [consumer] and [all] the broker's configuration holds the consume
    routes under [route_consume], for [publisher] and [all] the handler's
    holds the publish routes under [route_publish]; the other keys keep
    their values, and a configuration that the type does not concern is
    not touched. *)
Theorem take_routes_installs json_loads file config log config' :
  take_routes json_loads file config = (log, config', None) ->
  exists routes,
    and_then (snd (load_routes json_loads file))
             (find_routes (identifier config)) = Done routes /\
    (if one_of (type config) ["consumer"; "all"] then
       exists d0 d value,
         broker_config config = Some d0 /\ broker_config config' = Some d /\
         getitem routes "consume" = Done value /\
         lookup "route_consume" d = Some value /\
         forall key, key <> "route_consume" -> lookup key d = lookup key d0
     else broker_config config' = broker_config config) /\
    (if one_of (type config) ["publisher"; "all"] then
       exists d0 d value,
         handler_config config = Some d0 /\ handler_config config' = Some d /\
         getitem routes "publish" = Done value /\
         lookup "route_publish" d = Some value /\
         forall key, key <> "route_publish" -> lookup key d = lookup key d0
     else handler_config config' = handler_config config) /\
    type config' = type config /\ identifier config' = identifier config.
Proof.
  unfold take_routes.
  destruct (load_routes json_loads file) as [log0 loaded]. cbn [snd].
  destruct (and_then loaded (find_routes (identifier config))) as [routes|f];
    [|discriminate].
  intros H. exists routes. split; [reflexivity|].
  destruct (one_of (type config) ["consumer"; "all"]) eqn:Tc.
  - destruct (getitem routes "consume") as [vc|fc] eqn:Gc; simp H; [|discriminate].
    destruct (broker_config config) as [dc|] eqn:Bc; simp H; [|discriminate].
    destruct (one_of (type config) ["publisher"; "all"]) eqn:Tp.
    + destruct (getitem routes "publish") as [vp|fp] eqn:Gp; simp H; [|discriminate].
      destruct (handler_config config) as [dh|] eqn:Bh; simp H; [|discriminate].
      injection H as _ <-. cbn. repeat split; auto.
      * exists dc, (set_key "route_consume" vc dc), vc. repeat split; auto.
        -- apply lookup_set_key.
        -- intros key N. now apply lookup_set_key_other.
      * exists dh, (set_key "route_publish" vp dh), vp. repeat split; auto.
        -- apply lookup_set_key.
        -- intros key N. now apply lookup_set_key_other.
    + injection H as _ <-. cbn. repeat split; auto.
      exists dc, (set_key "route_consume" vc dc), vc. repeat split; auto.
      * apply lookup_set_key.
      * intros key N. now apply lookup_set_key_other.
  - destruct (one_of (type config) ["publisher"; "all"]) eqn:Tp.
    + destruct (getitem routes "publish") as [vp|fp] eqn:Gp; simp H; [|discriminate].
      destruct (handler_config config) as [dh|] eqn:Bh; simp H; [|discriminate].
      injection H as _ <-. cbn. repeat split; auto.
      exists dh, (set_key "route_publish" vp dh), vp. repeat split; auto.
      * apply lookup_set_key.
      * intros key N. now apply lookup_set_key_other.
    + injection H as _ <-. repeat split; auto.
Qed.

Lemma malformed_entry_rejects_all_witness :
  take_routes
    (fun _ => Ret (JArr [service_entry "pwsh" (JObj [("publish", JArr [])]);
                         JStr "note"]))
    (Some "text") (sample_service "publisher") =
  (["Routes was not provided."], sample_service "publisher",
   Some (Builtin (mkExn ValueError "Routes was not provided."))).
Proof.
  refine (malformed_entry_rejects_all _ "text"
            [service_entry "pwsh" (JObj [("publish", JArr [])]); JStr "note"]
            (JStr "note")
            (Builtin (mkExn TypeError "string indices must be integers"))
            (sample_service "publisher") _ _ _).
  - reflexivity.
  - right. left. reflexivity.
  - reflexivity.
Defined.

Lemma first_entry_of_service_wins_witness :
  find_routes (Some "pwsh")
    (JArr ([service_entry "other" JNull] ++
           service_entry "pwsh" (JStr "first") ::
           [service_entry "pwsh" (JStr "second")])) =
  getitem (service_entry "pwsh" (JStr "first")) "routes".
Proof.
  refine (first_entry_of_service_wins (Some "pwsh") [service_entry "other" JNull]
            (service_entry "pwsh" (JStr "first"))
            [service_entry "pwsh" (JStr "second")] (JStr "pwsh") _ _ _ _).
  - intros item [<-|[]]. eexists. split; reflexivity.
  - reflexivity.
  - reflexivity.
  - intros item [<-|[]]. eexists. reflexivity.
Defined.

Lemma take_routes_installs_witness :
  let json_loads := fun _ : string =>
    Ret (JArr [service_entry "pwsh"
                 (JObj [("consume", JStr "c"); ("publish", JStr "p")])]) in
  let config := sample_service "consumer" in
  let config' :=
    mkService "/var/log" "DEBUG" "consumer" "routes.json" (Some "pwsh")
              (Some [("route_consume", JStr "c")]) (Some []) in
  exists routes,
    and_then (snd (load_routes json_loads (Some "text")))
             (find_routes (identifier config)) = Done routes /\
    (if one_of (type config) ["consumer"; "all"] then
       exists d0 d value,
         broker_config config = Some d0 /\ broker_config config' = Some d /\
         getitem routes "consume" = Done value /\
         lookup "route_consume" d = Some value /\
         forall key, key <> "route_consume" -> lookup key d = lookup key d0
     else broker_config config' = broker_config config) /\
    (if one_of (type config) ["publisher"; "all"] then
       exists d0 d value,
         handler_config config = Some d0 /\ handler_config config' = Some d /\
         getitem routes "publish" = Done value /\
         lookup "route_publish" d = Some value /\
         forall key, key <> "route_publish" -> lookup key d = lookup key d0
     else handler_config config' = handler_config config) /\
    type config' = type config /\ identifier config' = identifier config.
Proof.
  cbv zeta.
  refine (take_routes_installs _ (Some "text") (sample_service "consumer") [] _ _).
  reflexivity.
Defined.

End ServiceFacts.
